(** * Molecule: formula tokenizer, tree builder and evaluators

    A shallow embedding of [chemical/molecule.py].  The class [Molecule]
    subclasses [str]; every method below therefore takes the formula
    [self] as a string.

    Modelling conventions.
    - A Python [str] is a Rocq [string]; a character is a code point
      below 256 (Rocq's [ascii], read as Latin-1), with the character
      classes CPython uses for [str] patterns and [str] predicates on
      that range.
    - A raised exception is the [Raise] outcome of the [result] monad;
      messages are kept.
    - [re.findall] scans left to right, records each match and resumes
      where the match ended, or one character further when nothing
      matches at the current position.
    - [_tokentree] calls itself; the number of nested calls the
      interpreter allows is the [depth] argument, and running out of it
      is Python's [RecursionError].
    - A Python [float] is a binary64 number ([PrimFloat]); [sum] adds
      from [0] left to right.
    - A Python [int] is unbounded ([Z]); [int] on a string refuses more
      than 4300 digits with a [ValueError], the interpreter's default
      limit for integer string conversion. *)

From Stdlib Require Import ZArith NArith QArith Lia Bool List String Ascii.
From Stdlib Require Import Floats Sorting.Sorted Sorting.Permutation.
From Stdlib Require Import Sorting.Mergesort Orders DecimalString.
Import ListNotations.

#[local] Set Warnings "-inexact-float,-register-all".
#[local] Open Scope string_scope.
#[local] Open Scope Z_scope.

(** ** Exceptions and the result monad *)

Inductive exn : Type :=
| KeyError (msg : string)
| ValueError (msg : string)
| OverflowError (msg : string)
| RecursionError.

Inductive result (A : Type) : Type :=
| Ok (a : A)
| Raise (e : exn).

Arguments Ok {A} a.
Arguments Raise {A} e.

Definition bind {A B : Type} (r : result A) (k : A -> result B) : result B :=
  match r with
  | Ok a => k a
  | Raise e => Raise e
  end.

Notation "x <- r ;; k" := (bind r (fun x => k))
  (at level 61, r at next level, right associativity).

(** [list(map(f, l))] and [[f(x) for x in l]]: [f] runs on the items in
    order and the first exception ends the traversal. *)
Definition map_result {A B : Type} (f : A -> result B) : list A -> result (list B) :=
  fix go (l : list A) : result (list B) :=
    match l with
    | [] => Ok []
    | a :: l' => b <- f a ;; bs <- go l' ;; Ok (b :: bs)
    end.

(** ** Characters *)

Definition code (c : ascii) : N := N_of_ascii c.

Definition in_range (lo hi : N) (c : ascii) : bool :=
  (N.leb lo (code c) && N.leb (code c) hi)%bool.

(** [[A-Z]] *)
Definition is_upper (c : ascii) : bool := in_range 65 90 c.
(** [[a-z]] *)
Definition is_lower (c : ascii) : bool := in_range 97 122 c.
(** [\d] on a [str] pattern: the decimal digits (category Nd). *)
Definition is_decimal (c : ascii) : bool := in_range 48 57 c.
(** [\s] on a [str] pattern: tab to carriage return, the four
    separators U+001C..U+001F, space, NEL and no-break space. *)
Definition is_space (c : ascii) : bool :=
  (in_range 9 13 c || in_range 28 32 c
   || N.eqb (code c) 133 || N.eqb (code c) 160)%bool.
(** One character of [str.isdigit]: the decimal digits and the
    superscripts U+00B2, U+00B3, U+00B9. *)
Definition char_isdigit (c : ascii) : bool :=
  (is_decimal c || N.eqb (code c) 178 || N.eqb (code c) 179
   || N.eqb (code c) 185)%bool.
(** One character of [str.isalpha]: the letters (the L categories). *)
Definition char_isalpha (c : ascii) : bool :=
  (is_upper c || is_lower c
   || N.eqb (code c) 170 || N.eqb (code c) 181 || N.eqb (code c) 186
   || in_range 192 214 c || in_range 216 246 c || in_range 248 255 c)%bool.

(** ** Strings *)

Fixpoint str_forall (p : ascii -> bool) (s : string) : bool :=
  match s with
  | EmptyString => true
  | String c s' => (p c && str_forall p s')%bool
  end.

Definition nonempty (s : string) : bool :=
  match s with EmptyString => false | String _ _ => true end.

(** [s.isdigit()] and [s.isalpha()]: every character qualifies and
    there is at least one. *)
Definition isdigit (s : string) : bool := (nonempty s && str_forall char_isdigit s)%bool.
Definition isalpha (s : string) : bool := (nonempty s && str_forall char_isalpha s)%bool.

(** [sub in s] on strings: [sub] occurs in [s] as a substring. *)
Fixpoint str_contains (s sub : string) : bool :=
  (String.prefix sub s ||
   match s with
   | EmptyString => false
   | String _ s' => str_contains s' sub
   end)%bool.

(** [''.join(l)] *)
Definition join (l : list string) : string := fold_right String.append "" l.

(** [s[1:-1]]: [s] without its first and its last character. *)
Fixpoint str_init (s : string) : string :=
  match s with
  | EmptyString => EmptyString
  | String _ EmptyString => EmptyString
  | String c s' => String c (str_init s')
  end.

Definition str_tail (s : string) : string :=
  match s with EmptyString => EmptyString | String _ s' => s' end.

Definition slice_1_m1 (s : string) : string := str_init (str_tail s).

(** [int(s)] on a string of decimal digits.  The interpreter first
    counts the digits the string starts with and refuses more than
    [sys.get_int_max_str_digits()] of them, 4300 unless the program
    changes it, which this module never does; leading zeros count.
    Then it reads the number; a character that is no digit, or no
    character at all, is an invalid literal.  Both failures are
    [ValueError].  The module only calls [int] on what [\d*] captured;
    signs, blanks and underscores are not modelled. *)
Definition digit_value (c : ascii) : Z := Z.of_N (code c) - 48.

Fixpoint int_digits (acc : Z) (s : string) : option Z :=
  match s with
  | EmptyString => Some acc
  | String c s' =>
      if is_decimal c then int_digits (10 * acc + digit_value c) s' else None
  end.

Definition int_max_str_digits : Z := 4300.

Fixpoint count_digits (s : string) : nat :=
  match s with
  | EmptyString => O
  | String c s' => if is_decimal c then S (count_digits s') else O
  end.

Definition int_limit_error (digits : nat) : exn :=
  ValueError
    ("Exceeds the limit (4300 digits) for integer string conversion: value has "
     ++ NilEmpty.string_of_uint (Nat.to_uint digits)
     ++ " digits; use sys.set_int_max_str_digits() to increase the limit").

Definition py_int (s : string) : result Z :=
  if Z.ltb int_max_str_digits (Z.of_nat (count_digits s))
  then Raise (int_limit_error (count_digits s))
  else
    match s with
    | EmptyString => Raise (ValueError "invalid literal for int() with base 10: ''")
    | _ =>
        match int_digits 0 s with
        | Some z => Ok z
        | None => Raise (ValueError ("invalid literal for int() with base 10: '" ++ s ++ "'"))
        end
    end.

(** ** The atomic mass table *)

Definition _atomic_mass : list (string * float) := ([
    ("H", 1.0079); ("He", 4.0026); ("Li", 6.941); ("Be", 9.0122);
    ("B", 10.811); ("C", 12.011); ("N", 14.007); ("O", 15.999);
    ("F", 18.998); ("Ne", 20.180); ("Na", 22.990); ("Mg", 24.305);
    ("Al", 26.982); ("Si", 28.086); ("P", 30.974); ("S", 32.065);
    ("Cl", 35.453); ("Ar", 39.948); ("K", 39.098); ("Ca", 40.078);
    ("Sc", 44.956); ("Ti", 47.867); ("V", 50.942); ("Cr", 51.996);
    ("Mn", 54.938); ("Fe", 55.845); ("Co", 58.933); ("Ni", 58.693);
    ("Cu", 63.546); ("Zn", 65.39); ("Ga", 69.723); ("Ge", 72.61);
    ("As", 74.922); ("Se", 78.96); ("Br", 79.904); ("Kr", 83.80);
    ("Rb", 85.468); ("Sr", 87.62); ("Y", 88.906); ("Zr", 91.224);
    ("Nb", 92.906); ("Mo", 95.94); ("Tc", 97.61); ("Ru", 101.07);
    ("Rh", 102.91); ("Pd", 106.42); ("Ag", 107.87); ("Cd", 112.41);
    ("In", 114.82); ("Sn", 118.71); ("Sb", 121.76); ("Te", 127.60);
    ("I", 126.90); ("Xe", 131.29); ("Cs", 132.91); ("Ba", 137.33);
    ("La", 138.91); ("Ce", 140.12); ("Pr", 140.91); ("Nd", 144.24);
    ("Pm", 145.0); ("Sm", 150.36); ("Eu", 151.96); ("Gd", 157.25);
    ("Tb", 158.93); ("Dy", 162.50); ("Ho", 164.93); ("Er", 167.26);
    ("Tm", 168.93); ("Yb", 173.04); ("Lu", 174.97); ("Hf", 178.49);
    ("Ta", 180.95); ("W", 183.84); ("Re", 186.21); ("Os", 190.23);
    ("Ir", 192.22); ("Pt", 196.08); ("Au", 196.08); ("Hg", 200.59);
    ("Tl", 204.38); ("Pb", 207.2); ("Bi", 208.98); ("Po", 209.0);
    ("At", 210.0); ("Rn", 222.0); ("Fr", 223.0); ("Ra", 226.0);
    ("Ac", 227.0); ("Th", 232.04); ("Pa", 231.04); ("U", 238.03);
    ("Np", 237.0); ("Pu", 244.0); ("Am", 243.0); ("Cm", 247.0);
    ("Bk", 247.0); ("Cf", 251.0); ("Es", 252.0); ("Fm", 257.0);
    ("Md", 258.0); ("No", 259.0); ("Lr", 262.0); ("Rf", 261.0);
    ("Db", 262.0); ("Sg", 266.0); ("Bh", 264.0); ("Hs", 269.0);
    ("Mt", 268.0)
  ])%float.

(** [d[k]] and [k in d] *)
Fixpoint dict_get {V : Type} (d : list (string * V)) (k : string) : option V :=
  match d with
  | [] => None
  | (k', v) :: d' => if String.eqb k k' then Some v else dict_get d' k
  end.

Definition dict_mem {V : Type} (d : list (string * V)) (k : string) : bool :=
  match dict_get d k with Some _ => true | None => false end.

(** ** Regular expressions

    A matcher takes the text at the current position and returns what
    it matched together with the text after the match.  Both patterns of
    the module are written with it; neither can match the empty string. *)

(** [c*] for a character class [c]: the longest run, and what follows. *)
Fixpoint span (p : ascii -> bool) (s : string) : string * string :=
  match s with
  | EmptyString => (EmptyString, EmptyString)
  | String c s' =>
      if p c then let (run, rest) := span p s' in (String c run, rest)
      else (EmptyString, s)
  end.

Section Findall.
Context {A : Type}.
Variable m : string -> option (A * string).

Fixpoint findall_from (fuel : nat) (s : string) : list A :=
  match fuel with
  | O => []
  | S fuel' =>
      match s with
      | EmptyString => []
      | String _ s' =>
          match m s with
          | Some (a, rest) => a :: findall_from fuel' rest
          | None => findall_from fuel' s'
          end
      end
  end.

(** [re.findall(pattern, s)] *)
Definition findall (s : string) : list A := findall_from (String.length s) s.
End Findall.

(** [[A-Z][a-z]*] *)
Definition match_symbol (s : string) : option (string * string) :=
  match s with
  | String c s' =>
      if is_upper c then let (low, rest) := span is_lower s' in Some (String c low, rest)
      else None
  | EmptyString => None
  end.

(** One character of a class. *)
Definition match_char (p : ascii -> bool) (s : string) : option (string * string) :=
  match s with
  | String c s' => if p c then Some (String c EmptyString, s') else None
  | EmptyString => None
  end.

(** [\d+] *)
Definition match_number (s : string) : option (string * string) :=
  match s with
  | String c s' =>
      if is_decimal c then let (ds, rest) := span is_decimal s' in Some (String c ds, rest)
      else None
  | EmptyString => None
  end.

(** [a|b]: the first alternative that matches. *)
Definition alt {B : Type} (a b : string -> option B) (s : string) : option B :=
  match a s with
  | Some r => Some r
  | None => b s
  end.

(** [[A-Z][a-z]*|\d+|\(|\)|\S] *)
Definition token_re : string -> option (string * string) :=
  alt match_symbol
    (alt match_number
       (alt (match_char (Ascii.eqb "("))
          (alt (match_char (Ascii.eqb ")"))
             (match_char (fun c => negb (is_space c)))))).

(** [[^)]] *)
Definition not_close (c : ascii) : bool := negb (Ascii.eqb c ")").

(** [\([^)]*\)]: after the greedy [[^)]*] the text is at its end or at a
    [)], so giving characters back can never make the closing [\)]
    match; one attempt decides. *)
Definition match_group (s : string) : option (string * string) :=
  match s with
  | String c s' =>
      if Ascii.eqb c "(" then
        let (body, rest) := span not_close s' in
        match rest with
        | String c' rest' =>
            if Ascii.eqb c' ")" then Some (String c (body ++ String c' EmptyString), rest')
            else None
        | EmptyString => None
        end
      else None
  | EmptyString => None
  end.

(** The pattern of [_tokentree]: group 1 is [\([^)]*\)] or else
    [[A-Z][a-z]*], group 2 is [\d*]; a match yields the two groups. *)
Definition tree_re (s : string) : option ((string * string) * string) :=
  match alt match_group match_symbol s with
  | Some (g, rest) => let (ds, rest') := span is_decimal rest in Some ((g, ds), rest')
  | None => None
  end.

(** ** The class [Molecule] *)

(** A token tree is a list of tuples [(str | list, int)]. *)
Inductive node : Type :=
| Symbol (sym : string) (natoms : Z)
| Group (tree : list node) (natoms : Z).

Definition tokentree : Type := list node.

Definition _gettokens (self : string) : list string := findall token_re self.

(** [not target] for [target] a string or [None] *)
Definition falsy (target : option string) : bool :=
  match target with
  | None => true
  | Some EmptyString => true
  | Some (String _ _) => false
  end.

Definition numfor (s : string) : result Z :=
  if String.eqb s "" then Ok 1 else py_int s.

(** [treetuple[0][0] == '('] *)
Definition starts_with_paren (s : string) : bool :=
  match s with
  | String c _ => Ascii.eqb c "("
  | EmptyString => false
  end.

(** [if not target: target = self] *)
Definition effective_target (self : string) (target : option string) : string :=
  if falsy target then self
  else match target with Some t => t | None => self end.

Fixpoint _tokentree (depth : nat) (self : string) (target : option string)
  : result tokentree :=
  match depth with
  | O => Raise RecursionError
  | S depth' =>
      let target := effective_target self target in
      let reslist := findall tree_re target in
      let _tokensubtree (treetuple : string * string) : result node :=
        if starts_with_paren (fst treetuple) then
          sub <- _tokentree depth' self (Some (slice_1_m1 (fst treetuple))) ;;
          n <- numfor (snd treetuple) ;;
          Ok (Group sub n)
        else
          n <- numfor (snd treetuple) ;;
          Ok (Symbol (fst treetuple) n)
      in
      map_result _tokensubtree reslist
  end.

(** The inner function [_tokensubtree] on its own: [depth] is what is
    left for the calls of [_tokentree] it makes. *)
Definition _tokensubtree (depth : nat) (self : string) (treetuple : string * string)
  : result node :=
  if starts_with_paren (fst treetuple) then
    sub <- _tokentree depth self (Some (slice_1_m1 (fst treetuple))) ;;
    n <- numfor (snd treetuple) ;;
    Ok (Group sub n)
  else
    n <- numfor (snd treetuple) ;;
    Ok (Symbol (fst treetuple) n).

(** ** Python numbers: [int] and [float] *)

Inductive pynum : Type :=
| PyInt (z : Z)
| PyFloat (f : float).

(** [float(z)] for an [int]: the nearest binary64 value, ties to even;
    an [int] beyond the largest finite float is an [OverflowError]. *)
Definition float_of_int (z : Z) : result float :=
  let f := SF2Prim (binary_normalize prec emax z 0 false) in
  if is_infinity f then Raise (OverflowError "int too large to convert to float")
  else Ok f.

Definition py_mul (a b : pynum) : result pynum :=
  match a, b with
  | PyInt x, PyInt y => Ok (PyInt (x * y))
  | PyFloat x, PyFloat y => Ok (PyFloat (x * y))
  | PyFloat x, PyInt y => y' <- float_of_int y ;; Ok (PyFloat (x * y'))
  | PyInt x, PyFloat y => x' <- float_of_int x ;; Ok (PyFloat (x' * y))
  end.

Definition py_add (a b : pynum) : result pynum :=
  match a, b with
  | PyInt x, PyInt y => Ok (PyInt (x + y))
  | PyFloat x, PyFloat y => Ok (PyFloat (x + y))
  | PyFloat x, PyInt y => y' <- float_of_int y ;; Ok (PyFloat (x + y'))
  | PyInt x, PyFloat y => x' <- float_of_int x ;; Ok (PyFloat (x' + y))
  end.

(** [sum(map(f, l))]: [map] is lazy, so [f] runs on an item just before
    that item is added to the running total, which starts at [0].  The
    additions are the plain ones, left to right, as in the interpreters
    that print the value of the module's docstring example; a
    compensated float sum agrees with it on up to two float items. *)
Definition sum_map {A : Type} (f : A -> result pynum) : list A -> pynum -> result pynum :=
  fix go (l : list A) (acc : pynum) : result pynum :=
    match l with
    | [] => Ok acc
    | a :: l' => x <- f a ;; acc' <- py_add acc x ;; go l' acc'
    end.

(** [sum(l)] for a list of [int] *)
Definition sum_int (l : list Z) : Z := fold_left Z.add l 0.

(** ** Evaluators *)

Fixpoint token_mass (n : node) : result pynum :=
  match n with
  | Symbol sym natoms =>
      nodemass <-
        (match dict_get _atomic_mass sym with
         | None => Raise (KeyError ("not an atomic symbol " ++ sym))
         | Some m => Ok (PyFloat m)
         end) ;;
      py_mul nodemass (PyInt natoms)
  | Group tree natoms =>
      nodemass <- sum_map token_mass tree (PyInt 0) ;;
      py_mul nodemass (PyInt natoms)
  end.

Definition _tree_mass (tree : tokentree) : result pynum :=
  sum_map token_mass tree (PyInt 0).

Definition _is_valid (sym : string) : result bool :=
  if str_contains "()" sym then Ok true
  else if isdigit sym then Ok true
  else if negb (isalpha sym) then Raise (ValueError ("bad symbol " ++ sym))
  else if negb (dict_mem _atomic_mass sym) then Raise (KeyError ("bad symbol " ++ sym))
  else Ok true.

Fixpoint check_tokens (ts : list string) : result bool :=
  match ts with
  | [] => Ok true
  | t :: ts' =>
      v <- _is_valid t ;;
      if negb v then Raise (ValueError ("bad symbol " ++ t)) else check_tokens ts'
  end.

Definition check_symbols (self : string) : result bool :=
  check_tokens (_gettokens self).

Definition mass (depth : nat) (self : string) : result pynum :=
  _ <- check_symbols self ;;
  tree <- _tokentree depth self None ;;
  _tree_mass tree.

(** The loop of [clean_copy]: a token is kept when [_is_valid] returns,
    and dropped when it raises, whatever it raises. *)
Fixpoint goodsyms (ts : list string) : list string :=
  match ts with
  | [] => []
  | s :: ts' =>
      match _is_valid s with
      | Raise _ => goodsyms ts'
      | Ok _ => s :: goodsyms ts'
      end
  end.

Definition clean_copy (self : string) : string := join (goodsyms (_gettokens self)).

Fixpoint token_count (symbol : string) (n : node) : result Z :=
  match n with
  | Symbol sym natoms =>
      if negb (dict_mem _atomic_mass sym)
      then Raise (KeyError ("not an atomic symbol " ++ sym))
      else if negb (String.eqb sym symbol) then Ok 0
      else Ok natoms
  | Group tree natoms =>
      counts <- map_result (token_count symbol) tree ;;
      Ok (sum_int counts * natoms)
  end.

Definition _tree_count (symbol : string) (tree : tokentree) : result Z :=
  counts <- map_result (token_count symbol) tree ;;
  Ok (sum_int counts).

Definition atoms (depth : nat) (self : string) (symbol : string) : result Z :=
  if negb (dict_mem _atomic_mass symbol) then Raise (KeyError "not in periodic table")
  else
    tree <- _tokentree depth self None ;;
    _tree_count symbol tree.

(** ** Enumeration of the elements *)

(** [sorted] on strings: ascending by code point, a prefix first. *)
Module StringOrder <: TotalLeBool.
Definition t : Type := string.
Definition leb : string -> string -> bool := String.leb.
Lemma leb_total (a1 a2 : string) : leb a1 a2 = true \/ leb a2 a1 = true.
Proof. apply String.leb_total. Qed.
End StringOrder.

Module StringSort := Sort StringOrder.

Definition sorted (l : list string) : list string := StringSort.sort l.

(** A [set] of strings holds each member once; [sorted] makes the order
    in which it stores them irrelevant. *)
Definition set_add (a : string) (s : list string) : list string :=
  if existsb (String.eqb a) s then s else s ++ [a].

Fixpoint collect_atoms (ts : list string) (atoms : list string) : list string :=
  match ts with
  | [] => atoms
  | a :: ts' =>
      collect_atoms ts' (if dict_mem _atomic_mass a then set_add a atoms else atoms)
  end.

(** The state of an [atomiter]; [tmpiter] is what [iter(self.atomset)]
    has not handed out yet. *)
Record atomiter : Type := {
  atomset : list string;
  iter_tokentree : tokentree;
  tmpiter : list string
}.

Definition __iter__ (depth : nat) (self : string) : result atomiter :=
  let atoms := collect_atoms (_gettokens self) [] in
  tree <- _tokentree depth self None ;;
  let atomset := sorted atoms in
  Ok {| atomset := atomset; iter_tokentree := tree; tmpiter := atomset |}.

(** [__next__] returns [None] where the source lets the [StopIteration]
    of [next(iself.tmpiter)] escape; nothing else in the module raises
    it. *)
Definition __next__ (depth : nat) (self : string) (iself : atomiter)
  : result (option ((string * Z) * atomiter)) :=
  match tmpiter iself with
  | [] => Ok None
  | my_atom :: rest =>
      n <- atoms depth self my_atom ;;
      Ok (Some ((my_atom, n),
                {| atomset := atomset iself;
                   iter_tokentree := iter_tokentree iself;
                   tmpiter := rest |}))
  end.

(** [for a in it]: [__next__] until [StopIteration], collecting what it
    returned; [fuel] bounds the number of calls. *)
Fixpoint drain (depth : nat) (self : string) (fuel : nat) (it : atomiter)
  : result (list (string * Z)) :=
  match fuel with
  | O => Ok []
  | S fuel' =>
      r <- __next__ depth self it ;;
      match r with
      | None => Ok []
      | Some (a, it') => rest <- drain depth self fuel' it' ;; Ok (a :: rest)
      end
  end.

(** [list(m)] for a [Molecule] [m] *)
Definition elements (depth : nat) (self : string) : result (list (string * Z)) :=
  it <- __iter__ depth self ;;
  drain depth self (S (List.length (tmpiter it))) it.

(** ** Vocabulary of the statements *)

Definition multiplier (n : node) : Z :=
  match n with
  | Symbol _ natoms => natoms
  | Group _ natoms => natoms
  end.

(** Every node of a tree, at any nesting depth. *)
Fixpoint subnodes (n : node) : list node :=
  n :: match n with
       | Symbol _ _ => []
       | Group tree _ => flat_map subnodes tree
       end.

Definition nodes (tree : tokentree) : list node := flat_map subnodes tree.

(** A [Number] token that denotes zero: a non-empty run of the digit 0. *)
Definition is_zero_number (t : string) : bool :=
  (nonempty t && str_forall (Ascii.eqb "0") t)%bool.

Definition no_zero_number (self : string) : bool :=
  forallb (fun t => negb (is_zero_number t)) (_gettokens self).

(** The exact rational value of a finite float. *)
Definition Q_of_float (f : float) : option Q :=
  match Prim2SF f with
  | S754_zero _ => Some 0%Q
  | S754_finite s m e =>
      Some (if (0 <=? e)%Z
            then inject_Z (cond_Zopp s (Zpos m) * 2 ^ e)
            else Qmake (cond_Zopp s (Zpos m)) (Z.to_pos (2 ^ (- e))))
  | S754_infinity _ | S754_nan => None
  end.

(** [x] lies within [tol] of the real number [target]. *)
Definition within (tol : Q) (x : float) (target : Q) : Prop :=
  match Q_of_float x with
  | Some q => (target - tol <= q /\ q <= target + tol)%Q
  | None => False
  end.

(** The symbols [__iter__] hands to the iterator. *)
Definition atom_symbols (self : string) : list string :=
  sorted (collect_atoms (_gettokens self) []).

Definition str_lt (a b : string) : Prop := String.ltb a b = true.

(** The first character of [s] exists and is in the class [p]. *)
Definition starts (p : ascii -> bool) (s : string) : bool :=
  match s with
  | String c _ => p c
  | EmptyString => false
  end.

(** The last character of [s] exists and is in the class [p]. *)
Fixpoint ends (p : ascii -> bool) (s : string) : bool :=
  match s with
  | EmptyString => false
  | String c s' => if nonempty s' then ends p s' else p c
  end.

(** [s] holds a maximal run of decimal digits that are all 0. *)
Definition zero_run (s : string) : Prop :=
  exists a z b,
    s = a ++ z ++ b /\ is_zero_number z = true /\
    ends is_decimal a = false /\ starts is_decimal b = false.

(** The tree pattern finds the group ["()"] in [self]. *)
Definition has_empty_group (self : string) : bool :=
  existsb (fun tt => String.eqb (fst tt) "()") (findall tree_re self).

(** The decimal value of a string of digits, read digit by digit: a
    digit with [k] digits after it counts [10 ^ k] times. *)
Fixpoint dec_value (s : string) : Z :=
  match s with
  | EmptyString => 0
  | String c s' => digit_value c * 10 ^ Z.of_nat (String.length s') + dec_value s'
  end.

(** The multiplier a digit run stands for: 1 when there is none, its
    decimal value otherwise. *)
Definition mult_of (ds : string) : Z := if nonempty ds then dec_value ds else 1.

(** The tree written out from the matches of the tree pattern: a match
    that is no group is a symbol with the multiplier of its digits; a
    group is a node with the multiplier of its digits over the matches
    found between its parentheses. *)
Definition leaf_of (tt : string * string) : node :=
  Symbol (fst tt) (mult_of (snd tt)).

Definition node_of (tt : string * string) : node :=
  if starts_with_paren (fst tt)
  then Group (map leaf_of (findall tree_re (slice_1_m1 (fst tt)))) (mult_of (snd tt))
  else leaf_of tt.

Definition matches_tree (self : string) : tokentree :=
  map node_of (findall tree_re self).

(** [z] is a maximal run of decimal digits of [s]. *)
Definition digit_run (s z : string) : Prop :=
  exists a b,
    s = a ++ z ++ b /\ nonempty z = true /\ str_forall is_decimal z = true /\
    ends is_decimal a = false /\ starts is_decimal b = false.

(** No run of digits of [s] is longer than [int] accepts. *)
Definition runs_short (s : string) : Prop :=
  forall z, digit_run s z -> Z.of_nat (String.length z) <= int_max_str_digits.

(** The same, decided on the tokens: every Number token has at most
    4300 digits. *)
Definition short_numbers (self : string) : bool :=
  forallb (fun t => (negb (starts is_decimal t)
                     || Z.leb (Z.of_nat (String.length t)) int_max_str_digits)%bool)
    (_gettokens self).

(** [clean_copy] keeps the token [t]: [_is_valid] returns on it. *)
Definition keep (t : string) : bool :=
  match _is_valid t with
  | Ok _ => true
  | Raise _ => false
  end.

(** A string [clean_copy] leaves alone, and that no symbol written in
    front of it can absorb. *)
Definition Clean (r : string) : Prop :=
  clean_copy r = r /\ starts is_lower r = false.

(** [s] without its white space. *)
Fixpoint remove_space (s : string) : string :=
  match s with
  | EmptyString => EmptyString
  | String c s' => if is_space c then remove_space s' else String c (remove_space s')
  end.

(** The three shapes of a token: an upper-case letter and lower-case
    letters, a run of decimal digits, one character that is no white
    space. *)
Definition is_token (t : string) : bool :=
  match t with
  | EmptyString => false
  | String c r =>
      ((is_upper c && str_forall is_lower r)
       || (is_decimal c && str_forall is_decimal r)
       || (negb (is_space c) && negb (nonempty r)))%bool
  end.

(** The symbols at the leaves of a tree, left to right. *)
Fixpoint node_symbols (n : node) : list string :=
  match n with
  | Symbol sym _ => [sym]
  | Group tree _ => flat_map node_symbols tree
  end.

Definition symbols (tree : tokentree) : list string := flat_map node_symbols tree.

(** [g] is written in [s] as an upper-case letter with all the
    lower-case letters that follow it. *)
Definition symbol_at (s g : string) : Prop :=
  exists pre c low rest,
    s = pre ++ String c (low ++ rest) /\ g = String c low /\
    is_upper c = true /\ str_forall is_lower low = true /\
    starts is_lower rest = false.

(** A node that is a symbol, and a node whose subtree, if it has one,
    holds symbols only. *)
Definition is_leaf (n : node) : bool :=
  match n with Symbol _ _ => true | Group _ _ => false end.

Definition is_flat (n : node) : bool :=
  match n with Symbol _ _ => true | Group tree _ => forallb is_leaf tree end.

(** The numbers [mass] can return: a float, or the integer 0. *)
Definition mass_value (v : pynum) : Prop :=
  match v with
  | PyInt z => z = 0
  | PyFloat _ => True
  end.

(** An evaluation that returns such a number or raises
    [OverflowError]. *)
Definition mass_outcome (r : result pynum) : Prop :=
  match r with
  | Ok v => mass_value v
  | Raise (OverflowError _) => True
  | Raise _ => False
  end.

(** ** The result monad *)

Lemma bind_Ok {A B : Type} (r : result A) (k : A -> result B) (b : B) :
  bind r k = Ok b -> exists a, r = Ok a /\ k a = Ok b.
Proof.
  destruct r as [a | e]; simpl; intros H; [exists a; auto | discriminate].
Qed.

Lemma map_result_Ok {A B : Type} (f : A -> result B) (l : list A) (bs : list B) :
  map_result f l = Ok bs -> Forall2 (fun a b => f a = Ok b) l bs.
Proof.
  revert bs; induction l as [| a l IH]; simpl; intros bs H.
  - injection H as <-. constructor.
  - apply bind_Ok in H as (b & Hb & H).
    apply bind_Ok in H as (bs' & Hbs & H).
    injection H as <-. constructor; auto.
Qed.

(** ** C1: the two error kinds of the validator *)

(** C1. On ["Xx"] [check_symbols] raises [KeyError], on ["H2$O"] it
    raises [ValueError]; a [KeyError] is never a [ValueError], so the
    caller can tell them apart. *)
Theorem check_symbols_error_kinds :
  check_symbols "Xx" = Raise (KeyError "bad symbol Xx") /\
  check_symbols "H2$O" = Raise (ValueError "bad symbol $") /\
  (forall m1 m2 : string, KeyError m1 <> ValueError m2).
Proof.
  split; [| split].
  - vm_compute. reflexivity.
  - vm_compute. reflexivity.
  - intros m1 m2 H. discriminate H.
Qed.

(** ** C2: the empty group *)

Lemma tokentree_S (depth : nat) (self : string) (target : option string) :
  _tokentree (S depth) self target
  = map_result (_tokensubtree depth self)
      (findall tree_re (effective_target self target)).
Proof. reflexivity. Qed.

Lemma tokentree_empty_group (depth : nat) (target : option string) :
  falsy target = true -> _tokentree depth "()" target = Raise RecursionError.
Proof.
  revert target; induction depth as [| d IH]; intros target Hf.
  - reflexivity.
  - rewrite tokentree_S. unfold effective_target. rewrite Hf.
    change (findall tree_re "()") with [("()", "")].
    unfold map_result, _tokensubtree. simpl starts_with_paren. cbv iota.
    change (slice_1_m1 (fst ("()", ""))) with "".
    rewrite (IH (Some EmptyString) eq_refl). reflexivity.
Qed.

(** C2, at the input ["()"]: whatever call depth the interpreter allows,
    building the tree exhausts it, and so does [mass]; neither returns
    a tree or raises [ValueError] or [KeyError]. *)
Theorem tokentree_empty_group_diverges (depth : nat) :
  _tokentree depth "()" None = Raise RecursionError /\
  check_symbols "()" = Ok true /\
  mass depth "()" = Raise RecursionError.
Proof.
  split; [| split].
  - apply tokentree_empty_group. reflexivity.
  - vm_compute. reflexivity.
  - unfold mass.
    replace (check_symbols "()") with (@Ok bool true) by (vm_compute; reflexivity).
    simpl bind. rewrite tokentree_empty_group by reflexivity. reflexivity.
Qed.

(** ** C3: a group nested in a group *)

(** C3, at the input ["Ca((OH)2)2"]: the outer group stops at the first
    closing parenthesis, so its subtree is the parse of ["(OH"], not of
    ["(OH)2"]; the inner group and its multiplier are lost and oxygen is
    counted twice instead of four times. *)
Theorem tokentree_nested_group (d : nat) :
  _tokentree (2 + d) "Ca((OH)2)2" None
    = Ok [Symbol "Ca" 1; Group [Symbol "O" 1; Symbol "H" 1] 2] /\
  _tokentree (2 + d) "(OH)2" None
    = Ok [Group [Symbol "O" 1; Symbol "H" 1] 2] /\
  _tokentree (2 + d) "Ca((OH)2)2" None
    <> Ok [Symbol "Ca" 1; Group [Group [Symbol "O" 1; Symbol "H" 1] 2] 2] /\
  atoms (2 + d) "Ca((OH)2)2" "O" = Ok 2.
Proof.
  repeat split; try (vm_compute; reflexivity).
  vm_compute. intros H. discriminate H.
Qed.

(** ** C5: the mass of calcium nitrate *)

(** C5. ["Ca(NO3)2"] parses into calcium and a group of multiplier 2
    holding nitrogen and three oxygens; its mass is the float sum, from
    0 and left to right, of table mass times multiplier, the group
    contributing its own such sum times 2; that float lies within 1e-6
    of 164.086. *)
Theorem mass_calcium_nitrate (d : nat) :
  _tokentree (2 + d) "Ca(NO3)2" None
    = Ok [Symbol "Ca" 1; Group [Symbol "N" 1; Symbol "O" 3] 2] /\
  exists x : float,
    mass (2 + d) "Ca(NO3)2" = Ok (PyFloat x) /\
    x = (0 + 40.078 * 1 + (0 + 14.007 * 1 + 15.999 * 3) * 2)%float /\
    within (1 # 1000000) x (164086 # 1000).
Proof.
  split.
  - vm_compute. reflexivity.
  - eexists. split; [vm_compute; reflexivity |]. split.
    + vm_compute. reflexivity.
    + vm_compute. split; intros H; discriminate H.
Qed.

(** The example of the module's docstring: [Molecule("H2SO4").mass()]
    prints as 98.07679999999999. *)
Example mass_docstring (d : nat) :
  mass (2 + d) "H2SO4" = Ok (PyFloat 98.07679999999999).
Proof. vm_compute. reflexivity. Qed.

(** ** C6: counting atoms in beryl *)

(** C6. In ["Be3Al2(SiO3)6"] there are 18 atoms of O, 6 of Si and 3
    of Be. *)
Theorem atoms_beryl (d : nat) :
  atoms (2 + d) "Be3Al2(SiO3)6" "O" = Ok 18 /\
  atoms (2 + d) "Be3Al2(SiO3)6" "Si" = Ok 6 /\
  atoms (2 + d) "Be3Al2(SiO3)6" "Be" = Ok 3.
Proof.
  repeat split; vm_compute; reflexivity.
Qed.

(** ** C8: a target symbol outside the table *)

(** C8. A target symbol that is not a key of the table makes [atoms]
    raise [KeyError], for every formula and before the formula is
    looked at. *)
Theorem atoms_unknown_symbol (depth : nat) (self symbol : string) :
  dict_mem _atomic_mass symbol = false ->
  atoms depth self symbol = Raise (KeyError "not in periodic table").
Proof.
  intros H. unfold atoms. rewrite H. reflexivity.
Qed.

Lemma atoms_unknown_symbol_witness :
  dict_mem _atomic_mass "Xx" = false /\
  atoms 1000 "H2O" "Xx" = Raise (KeyError "not in periodic table").
Proof.
  split.
  - vm_compute. reflexivity.
  - apply (atoms_unknown_symbol 1000 "H2O" "Xx"). vm_compute. reflexivity.
Defined.

(** ** C10: the empty formula *)

(** C10. On the empty formula [check_symbols] returns [True], [mass]
    returns the integer 0 and [atoms] returns 0 for every symbol of the
    table. *)
Theorem empty_formula (d : nat) (symbol : string) :
  dict_mem _atomic_mass symbol = true ->
  check_symbols "" = Ok true /\
  mass (1 + d) "" = Ok (PyInt 0) /\
  atoms (1 + d) "" symbol = Ok 0.
Proof.
  intros H. split; [| split].
  - reflexivity.
  - reflexivity.
  - unfold atoms. rewrite H. reflexivity.
Qed.

Lemma empty_formula_witness :
  check_symbols "" = Ok true /\
  mass 1 "" = Ok (PyInt 0) /\
  atoms 1 "" "O" = Ok 0.
Proof.
  apply (empty_formula 0 "O"). vm_compute. reflexivity.
Defined.

(** ** Strings, spans and [findall] *)

Ltac by_ascii c :=
  destruct c as [[] [] [] [] [] [] [] []]; vm_compute; congruence.

Lemma append_nil_r (s : string) : s ++ "" = s.
Proof. induction s as [| c s IH]; simpl; congruence. Qed.

Lemma append_assoc (a b c : string) : (a ++ b) ++ c = a ++ b ++ c.
Proof. induction a as [| x a IH]; simpl; congruence. Qed.

Lemma length_append (a b : string) :
  String.length (a ++ b) = (String.length a + String.length b)%nat.
Proof. induction a as [| x a IH]; simpl; congruence. Qed.

Lemma span_append (p : ascii -> bool) (s : string) :
  fst (span p s) ++ snd (span p s) = s.
Proof.
  induction s as [| c s IH]; simpl; [reflexivity |].
  destruct (p c); [| reflexivity].
  destruct (span p s) as [run rest]; simpl in *. congruence.
Qed.

Lemma span_fst_forall (p : ascii -> bool) (s : string) :
  str_forall p (fst (span p s)) = true.
Proof.
  induction s as [| c s IH]; simpl; [reflexivity |].
  destruct (p c) eqn:Hc; [| reflexivity].
  destruct (span p s) as [run rest]; simpl in *. rewrite Hc. assumption.
Qed.

Lemma span_snd_starts (p : ascii -> bool) (s : string) :
  starts p (snd (span p s)) = false.
Proof.
  induction s as [| c s IH]; simpl; [reflexivity |].
  destruct (p c) eqn:Hc; [| simpl; assumption].
  destruct (span p s) as [run rest]; simpl in *. assumption.
Qed.

Lemma span_snd_length (p : ascii -> bool) (s : string) :
  (String.length (snd (span p s)) <= String.length s)%nat.
Proof.
  rewrite <- (span_append p s) at 2. rewrite length_append. lia.
Qed.

Lemma span_not_starts (p : ascii -> bool) (r : string) :
  starts p r = false -> span p r = (EmptyString, r).
Proof.
  destruct r as [| c r]; simpl; [reflexivity |]. intros ->. reflexivity.
Qed.

(** A run of [p] in front only lengthens the span. *)
Lemma span_prefix (p : ascii -> bool) (a r : string) :
  str_forall p a = true ->
  span p (a ++ r) = (a ++ fst (span p r), snd (span p r)).
Proof.
  induction a as [| c a IH]; simpl; intros H.
  - destruct (span p r); reflexivity.
  - apply andb_prop in H as [Hc Ha]. rewrite Hc, (IH Ha). reflexivity.
Qed.

Lemma span_stop (p : ascii -> bool) (a r : string) :
  str_forall p a = true -> starts p r = false -> span p (a ++ r) = (a, r).
Proof.
  intros Ha Hr. rewrite (span_prefix p a r Ha), (span_not_starts p r Hr).
  simpl. rewrite append_nil_r. reflexivity.
Qed.

Section FindallFacts.
Context {A : Type} (m : string -> option (A * string)).
Hypothesis m_consumes : forall s a rest,
  m s = Some (a, rest) -> exists t, nonempty t = true /\ s = t ++ rest.

Lemma m_shrinks (s : string) (a : A) (rest : string) :
  m s = Some (a, rest) -> (String.length rest < String.length s)%nat.
Proof.
  intros Hm. apply m_consumes in Hm as (t & Ht & ->).
  rewrite length_append. destruct t; [discriminate | simpl; lia].
Qed.

Lemma findall_from_fuel (fuel1 fuel2 : nat) (s : string) :
  (String.length s <= fuel1)%nat -> (String.length s <= fuel2)%nat ->
  findall_from m fuel1 s = findall_from m fuel2 s.
Proof.
  revert fuel2 s; induction fuel1 as [| f1 IH]; intros fuel2 s H1 H2.
  - destruct s; [| simpl in H1; lia]. destruct fuel2; reflexivity.
  - destruct fuel2 as [| f2]; [destruct s; [reflexivity | simpl in H2; lia] |].
    destruct s as [| c s]; [reflexivity |]. simpl in H1, H2. simpl.
    destruct (m (String c s)) as [[a rest] |] eqn:Hm.
    + apply m_shrinks in Hm. simpl in Hm. f_equal. apply IH; lia.
    + apply IH; lia.
Qed.

Lemma findall_cons (c : ascii) (s : string) :
  findall m (String c s)
  = match m (String c s) with
    | Some (a, rest) => a :: findall m rest
    | None => findall m s
    end.
Proof.
  unfold findall at 1. simpl.
  destruct (m (String c s)) as [[a rest] |] eqn:Hm.
  - apply m_shrinks in Hm. simpl in Hm. f_equal.
    apply findall_from_fuel; lia.
  - reflexivity.
Qed.

(** Every match was found at some position of the text. *)
Lemma findall_In (a : A) (s : string) :
  In a (findall m s) ->
  exists pre x rest, s = pre ++ x /\ m x = Some (a, rest).
Proof.
  remember (String.length s) as n eqn:Hn.
  revert s Hn; induction n as [n IH] using lt_wf_ind; intros s Hn Hin.
  destruct s as [| c s]; [contradiction |].
  rewrite findall_cons in Hin.
  destruct (m (String c s)) as [[a' rest] |] eqn:Hm.
  - destruct Hin as [-> | Hin].
    + exists EmptyString, (String c s), rest. split; [reflexivity | assumption].
    + pose proof (m_shrinks _ _ _ Hm) as Hlt.
      destruct (IH (String.length rest) ltac:(lia) rest eq_refl Hin)
        as (pre & x & rest' & Hs & Hx).
      apply m_consumes in Hm as (t & _ & Ht).
      exists (t ++ pre), x, rest'. split; [| assumption].
      rewrite Ht, Hs, append_assoc. reflexivity.
  - simpl in Hn.
    destruct (IH (String.length s) ltac:(lia) s eq_refl Hin)
      as (pre & x & rest' & Hs & Hx).
    exists (String c pre), x, rest'. split; [simpl; congruence | assumption].
Qed.
End FindallFacts.

(** ** The tokenizer *)

(** The token pattern, alternative by alternative. *)
Lemma token_re_cons (c : ascii) (s : string) :
  token_re (String c s)
  = if is_upper c then Some (String c (fst (span is_lower s)), snd (span is_lower s))
    else if is_decimal c
         then Some (String c (fst (span is_decimal s)), snd (span is_decimal s))
         else if (Ascii.eqb "(" c || Ascii.eqb ")" c || negb (is_space c))%bool
              then Some (String c EmptyString, s)
              else None.
Proof.
  unfold token_re, alt, match_symbol, match_number, match_char.
  destruct (is_upper c).
  - destruct (span is_lower s); reflexivity.
  - destruct (is_decimal c).
    + destruct (span is_decimal s); reflexivity.
    + destruct (Ascii.eqb "(" c); [reflexivity |].
      destruct (Ascii.eqb ")" c); [reflexivity |].
      destruct (is_space c); reflexivity.
Qed.

Lemma token_re_consumes (s t rest : string) :
  token_re s = Some (t, rest) -> exists t', nonempty t' = true /\ s = t' ++ rest.
Proof.
  destruct s as [| c s]; [discriminate |]. rewrite token_re_cons.
  destruct (is_upper c); [| destruct (is_decimal c);
    [| destruct (Ascii.eqb "(" c || Ascii.eqb ")" c || negb (is_space c))%bool]];
    intros H; try discriminate; injection H as <- <-.
  - exists (String c (fst (span is_lower s))). split; [reflexivity |].
    simpl. rewrite span_append. reflexivity.
  - exists (String c (fst (span is_decimal s))). split; [reflexivity |].
    simpl. rewrite span_append. reflexivity.
  - exists (String c EmptyString). split; reflexivity.
Qed.

Lemma gettokens_cons (c : ascii) (s : string) :
  _gettokens (String c s)
  = match token_re (String c s) with
    | Some (t, rest) => t :: _gettokens rest
    | None => _gettokens s
    end.
Proof. apply findall_cons, token_re_consumes. Qed.

(** ** C9: the sanitizer is idempotent *)

Lemma goodsyms_cons (t : string) (ts : list string) :
  goodsyms (t :: ts) = if keep t then t :: goodsyms ts else goodsyms ts.
Proof. unfold keep. simpl. destruct (_is_valid t); reflexivity. Qed.

Lemma clean_copy_cons (c : ascii) (s : string) :
  clean_copy (String c s)
  = match token_re (String c s) with
    | Some (t, rest) => if keep t then t ++ clean_copy rest else clean_copy rest
    | None => clean_copy s
    end.
Proof.
  unfold clean_copy. rewrite gettokens_cons.
  destruct (token_re (String c s)) as [[t rest] |]; [| reflexivity].
  rewrite goodsyms_cons. destruct (keep t); reflexivity.
Qed.

Lemma upper_not_lower (c : ascii) : is_upper c = true -> is_lower c = false.
Proof. by_ascii c. Qed.

Lemma decimal_not_upper (c : ascii) : is_decimal c = true -> is_upper c = false.
Proof. by_ascii c. Qed.

Lemma decimal_not_lower (c : ascii) : is_decimal c = true -> is_lower c = false.
Proof. by_ascii c. Qed.

Lemma decimal_isdigit (c : ascii) : is_decimal c = true -> char_isdigit c = true.
Proof. unfold char_isdigit. intros ->. reflexivity. Qed.

(** A lower-case letter alone is no key of the table, no digit and no
    parenthesis. *)
Lemma keep_single_not_lower (c : ascii) :
  keep (String c EmptyString) = true -> is_lower c = false.
Proof. by_ascii c. Qed.

Lemma forall_decimal_isdigit (t : string) :
  str_forall is_decimal t = true -> str_forall char_isdigit t = true.
Proof.
  induction t as [| c t IH]; simpl; [reflexivity |].
  intros H. apply andb_prop in H as [Hc Ht].
  rewrite (decimal_isdigit c Hc), (IH Ht). reflexivity.
Qed.

(** A number token is always kept. *)
Lemma keep_number (c : ascii) (ds : string) :
  is_decimal c = true -> str_forall is_decimal ds = true ->
  keep (String c ds) = true.
Proof.
  intros Hc Hds. unfold keep, _is_valid.
  destruct (str_contains "()" (String c ds)); [reflexivity |].
  unfold isdigit. simpl.
  rewrite (decimal_isdigit c Hc), (forall_decimal_isdigit ds Hds). reflexivity.
Qed.

(** The digits a text starts with come out of [clean_copy] unchanged. *)
Lemma clean_copy_leading_digits (r : string) :
  clean_copy r
  = fst (span is_decimal r) ++ clean_copy (snd (span is_decimal r)).
Proof.
  destruct r as [| c r]; [reflexivity |].
  simpl span. destruct (is_decimal c) eqn:Hc; [| reflexivity].
  rewrite clean_copy_cons, token_re_cons, (decimal_not_upper c Hc), Hc.
  rewrite (keep_number c _ Hc (span_fst_forall is_decimal r)).
  destruct (span is_decimal r); reflexivity.
Qed.

Lemma clean_copy_Clean (s : string) : Clean (clean_copy s).
Proof.
  remember (String.length s) as n eqn:Hn.
  revert s Hn; induction n as [n IH] using lt_wf_ind; intros s Hn.
  destruct s as [| c s]; [split; reflexivity |].
  simpl in Hn. rewrite clean_copy_cons, token_re_cons.
  destruct (is_upper c) eqn:Hup; [| destruct (is_decimal c) eqn:Hdec;
    [| destruct (Ascii.eqb "(" c || Ascii.eqb ")" c || negb (is_space c))%bool eqn:Hone]].
  - (* an element symbol *)
    pose proof (span_snd_length is_lower s) as Hlen.
    destruct (IH (String.length (snd (span is_lower s))) ltac:(lia) _ eq_refl)
      as [Hr Hlow].
    destruct (keep (String c (fst (span is_lower s)))) eqn:Hkeep; [| split; assumption].
    set (low := fst (span is_lower s)) in *.
    set (r := clean_copy (snd (span is_lower s))) in *.
    split; [| simpl; apply upper_not_lower; assumption].
    simpl append. rewrite clean_copy_cons, token_re_cons, Hup.
    rewrite (span_stop is_lower low r (span_fst_forall is_lower s) Hlow).
    simpl fst; simpl snd. rewrite Hkeep, Hr. reflexivity.
  - (* a number *)
    pose proof (span_snd_length is_decimal s) as Hlen.
    destruct (IH (String.length (snd (span is_decimal s))) ltac:(lia) _ eq_refl)
      as [Hr _].
    pose proof (span_fst_forall is_decimal s) as Hds.
    rewrite (keep_number c _ Hdec Hds).
    set (ds := fst (span is_decimal s)) in *.
    set (r := clean_copy (snd (span is_decimal s))) in *.
    split; [| simpl; apply decimal_not_lower; assumption].
    simpl append. rewrite clean_copy_cons, token_re_cons, Hup, Hdec.
    rewrite (span_prefix is_decimal ds r Hds). simpl fst; simpl snd.
    assert (Hall : str_forall is_decimal (ds ++ fst (span is_decimal r)) = true).
    { pose proof (span_fst_forall is_decimal r) as Hrun.
      clear - Hds Hrun. induction ds as [| x ds IHds]; simpl in *; [assumption |].
      apply andb_prop in Hds as [Hx Hds]. rewrite Hx. auto. }
    rewrite (keep_number c _ Hdec Hall). simpl append. f_equal.
    rewrite append_assoc. f_equal.
    rewrite <- clean_copy_leading_digits. assumption.
  - (* a single character *)
    destruct (IH (String.length s) ltac:(lia) s eq_refl) as [Hr Hlow].
    destruct (keep (String c EmptyString)) eqn:Hkeep; [| split; assumption].
    set (r := clean_copy s) in *.
    split; [| simpl; apply keep_single_not_lower; assumption].
    simpl append. rewrite clean_copy_cons, token_re_cons, Hup, Hdec, Hone, Hkeep, Hr.
    reflexivity.
  - (* white space *)
    apply (IH (String.length s) ltac:(lia) s eq_refl).
Qed.

(** C9. Cleaning a cleaned formula changes nothing. *)
Theorem clean_copy_idempotent (f : string) :
  clean_copy (clean_copy f) = clean_copy f.
Proof. apply clean_copy_Clean. Qed.

(** ** C7: enumeration of the elements *)

Lemma string_leb_trans (a b c : string) :
  String.leb a b = true -> String.leb b c = true -> String.leb a c = true.
Proof.
  unfold String.leb. revert b c.
  induction a as [| x a IH]; intros [| y b] [| z c]; simpl; try congruence.
  unfold Ascii.compare.
  destruct (N.compare_spec (N_of_ascii x) (N_of_ascii y)) as [E1 | L1 | G1];
    destruct (N.compare_spec (N_of_ascii y) (N_of_ascii z)) as [E2 | L2 | G2];
    destruct (N.compare_spec (N_of_ascii x) (N_of_ascii z)) as [E3 | L3 | G3];
    try congruence; try lia.
  apply IH.
Qed.

Lemma string_lt_of_leb (a b : string) :
  String.leb a b = true -> a <> b -> String.ltb a b = true.
Proof.
  unfold String.leb, String.ltb. intros Hle Hne.
  destruct (String.compare a b) eqn:Hc; try congruence.
  apply String.compare_eq_iff in Hc. contradiction.
Qed.

Lemma set_add_In (a x : string) (s : list string) :
  In x (set_add a s) <-> In x s \/ x = a.
Proof.
  unfold set_add. destruct (existsb (String.eqb a) s) eqn:Hex.
  - apply existsb_exists in Hex as (y & Hy & Heq).
    apply String.eqb_eq in Heq. subst y.
    split; [auto | intros [H | ->]; assumption].
  - rewrite in_app_iff. simpl. intuition congruence.
Qed.

Lemma set_add_NoDup (a : string) (s : list string) :
  NoDup s -> NoDup (set_add a s).
Proof.
  intros Hs. unfold set_add. destruct (existsb (String.eqb a) s) eqn:Hex; [assumption |].
  apply NoDup_app; [assumption | repeat constructor; simpl; tauto |].
  intros x Hx [Hax | []]. subst x.
  assert (existsb (String.eqb a) s = true); [| congruence].
  apply existsb_exists. exists a. split; [assumption | apply String.eqb_refl].
Qed.

Lemma collect_atoms_spec (ts acc : list string) :
  NoDup acc ->
  NoDup (collect_atoms ts acc) /\
  forall a, In a (collect_atoms ts acc)
            <-> In a acc \/ (In a ts /\ dict_mem _atomic_mass a = true).
Proof.
  revert acc; induction ts as [| t ts IH]; simpl; intros acc Hacc.
  - split; [assumption | intros a; tauto].
  - destruct (dict_mem _atomic_mass t) eqn:Ht.
    + destruct (IH (set_add t acc) (set_add_NoDup t acc Hacc)) as [Hnd Hin].
      split; [assumption |]. intros a. rewrite Hin, set_add_In.
      split; [intros [[H | ->] | [H1 H2]]; auto | intros [H | [[<- | H1] H2]]; auto].
    + destruct (IH acc Hacc) as [Hnd Hin].
      split; [assumption |]. intros a. rewrite Hin.
      split; [intros [H | [H1 H2]]; auto | intros [H | [[<- | H1] H2]]; auto].
      congruence.
Qed.

(** The symbols handed to the iterator: ascending, each one once, and
    exactly the tokens that are keys of the table. *)
Lemma atom_symbols_spec (self : string) :
  StronglySorted str_lt (atom_symbols self) /\
  forall a, In a (atom_symbols self)
            <-> In a (_gettokens self) /\ dict_mem _atomic_mass a = true.
Proof.
  unfold atom_symbols, sorted.
  set (l := collect_atoms (_gettokens self) []).
  destruct (collect_atoms_spec (_gettokens self) [] (NoDup_nil _)) as [Hnd Hin].
  fold l in Hnd, Hin.
  pose proof (StringSort.Permuted_sort l) as Hperm.
  split.
  - assert (Hss : StronglySorted (fun a b => is_true (StringOrder.leb a b))
                    (StringSort.sort l)).
    { apply StringSort.StronglySorted_sort.
      intros a b c. apply string_leb_trans. }
    assert (Hnd' : NoDup (StringSort.sort l))
      by (eapply Permutation_NoDup; eassumption).
    clear - Hss Hnd'. induction Hss as [| a l' Hss IH Hall]; constructor.
    + apply IH. inversion Hnd'; assumption.
    + inversion Hnd' as [| ? ? Hnotin Hnd'']; subst.
      rewrite Forall_forall in *. intros b Hb.
      apply string_lt_of_leb; [apply Hall; assumption |].
      intros ->. contradiction.
  - intros a. split.
    + intros Ha. apply (Permutation_in _ (Permutation_sym Hperm)) in Ha.
      apply Hin in Ha as [[] | Ha]. assumption.
    + intros Ha. apply (Permutation_in _ Hperm). apply Hin. right. assumption.
Qed.

(** The loop visits the remaining symbols in order and pairs each with
    what [atoms] returns for it. *)
Lemma drain_spec (depth : nat) (self : string) (fuel : nat) (it : atomiter)
    (pairs : list (string * Z)) :
  (List.length (tmpiter it) < fuel)%nat ->
  drain depth self fuel it = Ok pairs ->
  map fst pairs = tmpiter it /\
  Forall (fun p => atoms depth self (fst p) = Ok (snd p)) pairs.
Proof.
  revert it pairs; induction fuel as [| fuel IH]; intros it pairs Hlen H; [lia |].
  simpl in H. unfold __next__ in H.
  destruct (tmpiter it) as [| my_atom rest] eqn:Htmp; simpl in H.
  - injection H as <-. split; constructor.
  - destruct (atoms depth self my_atom) as [n | e] eqn:Hat; simpl in H;
      [| discriminate].
    apply bind_Ok in H as (ps & Hps & H). injection H as <-.
    apply IH in Hps as [Hfst Hall]; [| simpl in *; lia].
    simpl in Hfst. split; [simpl; congruence | constructor; assumption].
Qed.

(** C7. Enumerating ["H2SO4"] yields (H,2), (O,4), (S,1) in that order.
    In general the symbols enumerated are the tokens that are keys of
    the table, each once and in strictly ascending order, and each is
    paired with the count [atoms] returns for it. *)
Theorem elements_sulfuric_acid (d : nat) :
  elements (2 + d) "H2SO4" = Ok [("H", 2); ("O", 4); ("S", 1)] /\
  (forall self : string,
     StronglySorted str_lt (atom_symbols self) /\
     forall a, In a (atom_symbols self)
               <-> In a (_gettokens self) /\ dict_mem _atomic_mass a = true) /\
  (forall (depth : nat) (self : string) (pairs : list (string * Z)),
     elements depth self = Ok pairs ->
     map fst pairs = atom_symbols self /\
     Forall (fun p => atoms depth self (fst p) = Ok (snd p)) pairs).
Proof.
  split; [vm_compute; reflexivity |]. split; [exact atom_symbols_spec |].
  intros depth self pairs H. unfold elements in H.
  apply bind_Ok in H as (it & Hit & H).
  unfold __iter__ in Hit. apply bind_Ok in Hit as (tree & _ & Hit).
  injection Hit as <-. simpl tmpiter in H.
  apply drain_spec in H; [exact H | simpl; lia].
Qed.

Lemma elements_sulfuric_acid_witness :
  map fst [("H", 2); ("O", 4); ("S", 1)] = atom_symbols "H2SO4" /\
  Forall (fun p => atoms 2 "H2SO4" (fst p) = Ok (snd p))
    [("H", 2); ("O", 4); ("S", 1)].
Proof.
  apply (proj2 (proj2 (elements_sulfuric_acid 0)) 2%nat "H2SO4").
  vm_compute. reflexivity.
Defined.

(** ** C4: multipliers *)

(** C4 as stated fails on ["H0"]: the digit run ["0"] is read by [int]
    and the node carries the multiplier 0. *)
Lemma multiplier_zero_counterexample :
  _tokentree 2 "H0" None = Ok [Symbol "H" 0] /\
  ~ Forall (fun n => 1 <= multiplier n) (nodes [Symbol "H" 0]).
Proof.
  split; [vm_compute; reflexivity |].
  intros H. apply Forall_inv in H. simpl in H. lia.
Qed.

Lemma decimal_value (c : ascii) :
  is_decimal c = true ->
  0 <= digit_value c /\ (digit_value c = 0 -> Ascii.eqb "0" c = true).
Proof.
  destruct c as [[] [] [] [] [] [] [] []]; vm_compute; intros H;
    try discriminate H; split; congruence.
Qed.

Lemma int_digits_Some (s : string) (acc z : Z) :
  0 <= acc -> int_digits acc s = Some z ->
  acc <= z /\ (z = 0 -> str_forall (Ascii.eqb "0") s = true).
Proof.
  revert acc; induction s as [| c s IH]; cbn [int_digits str_forall];
    intros acc Hacc H.
  - injection H as <-. split; [lia | reflexivity].
  - destruct (is_decimal c) eqn:Hc; [| discriminate].
    destruct (decimal_value c Hc) as [Hv Hv0].
    apply IH in H as [Hle Hz]; [| lia].
    split; [lia |]. intros ->.
    rewrite Hv0 by lia. apply Hz. reflexivity.
Qed.

(** What [numfor] returns: 1 for no digits, otherwise a natural number
    that is 0 only for a run of zeros. *)
Lemma numfor_Ok (ds : string) (k : Z) :
  numfor ds = Ok k ->
  (ds = "" /\ k = 1) \/ (0 <= k /\ (k = 0 -> is_zero_number ds = true)).
Proof.
  unfold numfor. destruct (String.eqb_spec ds "") as [-> | Hne].
  - intros H. injection H as <-. left. split; reflexivity.
  - intros H. right. unfold py_int in H.
    destruct (Z.ltb int_max_str_digits (Z.of_nat (count_digits ds)));
      [discriminate |].
    destruct ds as [| c ds]; [congruence |].
    destruct (int_digits 0 (String c ds)) as [z |] eqn:Hz; [| discriminate].
    injection H as <-.
    apply int_digits_Some in Hz as [Hle Hzero]; [| lia].
    split; [assumption |]. intros Hk. unfold is_zero_number.
    rewrite (Hzero Hk). reflexivity.
Qed.

Lemma ends_append (p : ascii -> bool) (x y : string) :
  ends p (x ++ y) = if nonempty y then ends p y else ends p x.
Proof.
  induction x as [| c x IH]; simpl.
  - destruct y; reflexivity.
  - rewrite IH. destruct x as [| c' x]; simpl.
    + destruct y; reflexivity.
    + destruct y; reflexivity.
Qed.

Lemma starts_append (p : ascii -> bool) (x y : string) :
  starts p (x ++ y) = if nonempty x then starts p x else starts p y.
Proof. destruct x; reflexivity. Qed.

Lemma str_init_append_single (b : string) (c : ascii) :
  str_init (b ++ String c EmptyString) = b.
Proof.
  induction b as [| x b IH]; simpl; [reflexivity |].
  rewrite IH. destruct b; reflexivity.
Qed.

Lemma str_forall_append (p : ascii -> bool) (x y : string) :
  str_forall p (x ++ y) = (str_forall p x && str_forall p y)%bool.
Proof.
  induction x as [| c x IH]; simpl; [reflexivity |].
  rewrite IH. apply andb_assoc.
Qed.

Lemma str_forall_middle (p : ascii -> bool) (x : string) (c : ascii) (y : string) :
  str_forall p (x ++ String c y) = true -> p c = true.
Proof.
  rewrite str_forall_append. intros H. apply andb_prop in H as [_ H].
  cbn [str_forall] in H. apply andb_prop in H as [H _]. exact H.
Qed.

Lemma zero_is_decimal (c : ascii) :
  Ascii.eqb "0" c = true -> is_decimal c = true.
Proof. by_ascii c. Qed.

Lemma zeros_decimal (z : string) :
  str_forall (Ascii.eqb "0") z = true -> str_forall is_decimal z = true.
Proof.
  induction z as [| c z IH]; simpl; [reflexivity |].
  intros H. apply andb_prop in H as [Hc Hz].
  rewrite (zero_is_decimal c Hc), (IH Hz). reflexivity.
Qed.

(** A zero run inside a parenthesized group is a zero run of the text
    around the group. *)
Lemma zero_run_in_group (pre body post : string) :
  zero_run body ->
  zero_run (pre ++ String "(" (body ++ String ")" post)).
Proof.
  intros (a & z & b & -> & Hz & Ha & Hb).
  exists (pre ++ String "(" a), z, (b ++ String ")" post).
  repeat split.
  - rewrite !append_assoc. simpl. rewrite ?append_assoc. reflexivity.
  - assumption.
  - rewrite ends_append. simpl. destruct a; [reflexivity | assumption].
  - rewrite starts_append. destruct b; [reflexivity | assumption].
Qed.

(** ** The tree pattern *)

Lemma match_symbol_spec (s g rest : string) :
  match_symbol s = Some (g, rest) ->
  s = g ++ rest /\ nonempty g = true /\ ends is_decimal g = false /\
  starts_with_paren g = false.
Proof.
  destruct s as [| c s]; [discriminate |]. unfold match_symbol.
  destruct (is_upper c) eqn:Hc; [| discriminate].
  pose proof (span_append is_lower s) as Happ.
  pose proof (span_fst_forall is_lower s) as Hlow.
  destruct (span is_lower s) as [low r]. simpl in Happ, Hlow.
  intros H. injection H as <- <-. repeat split.
  - simpl. congruence.
  - assert (Hend : forall l x, is_decimal x = false ->
                     str_forall is_lower l = true ->
                     ends is_decimal (String x l) = false).
    { clear. induction l as [| y l IH]; intros x Hx Hl; [simpl; assumption |].
      simpl in Hl. apply andb_prop in Hl as [Hy Hl].
      change (ends is_decimal (String y l) = false). apply IH; [| assumption].
      revert Hy. clear. by_ascii y. }
    apply Hend; [| assumption]. revert Hc. clear. by_ascii c.
  - simpl. revert Hc. clear. by_ascii c.
Qed.

Lemma match_group_spec (s g rest : string) :
  match_group s = Some (g, rest) ->
  s = g ++ rest /\
  exists body, g = String "(" (body ++ String ")" EmptyString) /\
               str_forall not_close body = true.
Proof.
  destruct s as [| c s]; [discriminate |]. unfold match_group.
  destruct (Ascii.eqb_spec c "(") as [-> | Hc]; [| discriminate].
  pose proof (span_append not_close s) as Happ.
  pose proof (span_fst_forall not_close s) as Hbody.
  destruct (span not_close s) as [body r].
  simpl in Happ, Hbody. destruct r as [| c' r]; [discriminate |].
  destruct (Ascii.eqb_spec c' ")") as [-> | Hc']; [| discriminate].
  intros H. injection H as <- <-. split; [| exists body; split; [reflexivity | assumption]].
  simpl. rewrite append_assoc. simpl. congruence.
Qed.

(** A match of the tree pattern: group 1, then the digits of group 2,
    which end where the digits of the text end. *)
Lemma tree_re_spec (s g ds rest : string) :
  tree_re s = Some ((g, ds), rest) ->
  s = g ++ ds ++ rest /\ nonempty g = true /\ ends is_decimal g = false /\
  starts is_decimal rest = false /\
  (if starts_with_paren g
   then exists body, g = String "(" (body ++ String ")" EmptyString) /\
                     str_forall not_close body = true
   else True).
Proof.
  unfold tree_re, alt.
  destruct (match_group s) as [[g' r] |] eqn:Hg.
  - apply match_group_spec in Hg as (Hs & body & Hbody & Hclose).
    pose proof (span_append is_decimal r) as Happ.
    pose proof (span_snd_starts is_decimal r) as Hstop.
    destruct (span is_decimal r) as [ds' rest']. simpl in Happ, Hstop.
    intros H. injection H as <- <- <-. subst g'. repeat split.
    + rewrite Happ. assumption.
    + change (String "(" (body ++ String ")" EmptyString))
        with (String "(" body ++ String ")" EmptyString).
      rewrite ends_append. reflexivity.
    + assumption.
    + simpl. exists body. split; [reflexivity | assumption].
  - destruct (match_symbol s) as [[g' r] |] eqn:Hsym; [| discriminate].
    apply match_symbol_spec in Hsym as (Hs & Hne & Hend & Hparen).
    pose proof (span_append is_decimal r) as Happ.
    pose proof (span_snd_starts is_decimal r) as Hstop.
    destruct (span is_decimal r) as [ds' rest']. simpl in Happ, Hstop.
    intros H. injection H as <- <- <-. repeat split; try assumption.
    + rewrite Happ. assumption.
    + rewrite Hparen. exact I.
Qed.

Lemma tree_re_digits (s g ds rest : string) :
  tree_re s = Some ((g, ds), rest) -> str_forall is_decimal ds = true.
Proof.
  unfold tree_re. destruct (alt match_group match_symbol s) as [[g' r] |];
    [| discriminate].
  pose proof (span_fst_forall is_decimal r) as Hds.
  destruct (span is_decimal r) as [ds' rest']. simpl in Hds.
  intros H. injection H as <- <- <-. assumption.
Qed.

Lemma tree_re_consumes (s : string) (a : string * string) (rest : string) :
  tree_re s = Some (a, rest) -> exists t, nonempty t = true /\ s = t ++ rest.
Proof.
  destruct a as [g ds]. intros H.
  apply tree_re_spec in H as (Hs & Hne & _).
  exists (g ++ ds). split; [destruct g; [discriminate | reflexivity] |].
  rewrite append_assoc. assumption.
Qed.

Lemma Forall2_In_right {A B : Type} (R : A -> B -> Prop) (l : list A) (l' : list B)
    (b : B) :
  Forall2 R l l' -> In b l' -> exists a, In a l /\ R a b.
Proof.
  induction 1 as [| x y l l' Hxy _ IH]; simpl; [contradiction |].
  intros [<- | Hb].
  - exists x. auto.
  - destruct (IH Hb) as (a & Ha & Hab). exists a. auto.
Qed.

Lemma Forall2_In_left {A B : Type} (R : A -> B -> Prop) (l : list A) (l' : list B)
    (a : A) :
  Forall2 R l l' -> In a l -> exists b, In b l' /\ R a b.
Proof.
  induction 1 as [| x y l l' Hxy _ IH]; simpl; [contradiction |].
  intros [<- | Ha].
  - exists y. auto.
  - destruct (IH Ha) as (b & Hb & Hab). exists b. auto.
Qed.

Lemma effective_target_Some (self body : string) :
  effective_target self (Some body) = if nonempty body then body else self.
Proof. destruct body; reflexivity. Qed.

(** Every multiplier of a built tree is a natural number, and one that
    is 0 was read from a run of zeros of the target or of the formula. *)
Lemma tokentree_multipliers (depth : nat) (self : string) :
  forall (target : option string) (tree : tokentree),
    _tokentree depth self target = Ok tree ->
    forall n, In n (nodes tree) ->
      0 <= multiplier n /\
      (multiplier n = 0 ->
       zero_run (effective_target self target) \/ zero_run self).
Proof.
  induction depth as [| d IH]; intros target tree Htree n Hn; [discriminate |].
  rewrite tokentree_S in Htree. apply map_result_Ok in Htree.
  set (tgt := effective_target self target) in *.
  unfold nodes in Hn. apply in_flat_map in Hn as (top & Htop & Hn).
  destruct (Forall2_In_right _ _ _ _ Htree Htop) as ([g ds] & Hin & Hsub).
  apply (findall_In tree_re tree_re_consumes) in Hin
    as (pre & x & rest & Htgt & Hx).
  apply tree_re_spec in Hx as (Hxeq & Hne & Hend & Hstop & Hparen).
  (* the multiplier read at this match *)
  assert (Hhere : forall k, numfor ds = Ok k ->
            0 <= k /\ (k = 0 -> zero_run tgt)).
  { intros k Hk. apply numfor_Ok in Hk as [[-> ->] | [Hk0 Hz]]; [split; lia |].
    split; [assumption |]. intros Hzero.
    exists (pre ++ g), ds, rest. repeat split.
    - rewrite Htgt, Hxeq, append_assoc. reflexivity.
    - apply Hz. assumption.
    - rewrite ends_append, Hne. assumption.
    - assumption. }
  unfold _tokensubtree in Hsub. simpl fst in Hsub; simpl snd in Hsub.
  destruct (starts_with_paren g) eqn:Hg.
  - destruct Hparen as (body & -> & _).
    apply bind_Ok in Hsub as (sub & Hsubtree & Hsub).
    apply bind_Ok in Hsub as (k & Hk & Hsub). injection Hsub as <-.
    simpl in Hn. destruct Hn as [<- | Hn].
    + destruct (Hhere k Hk) as [H0 Hz]. split; [assumption |]. auto.
    + unfold slice_1_m1 in Hsubtree. simpl str_tail in Hsubtree.
      rewrite str_init_append_single in Hsubtree.
      destruct (IH (Some body) sub Hsubtree n Hn) as [H0 Hz].
      split; [assumption |]. intros Hzero.
      destruct (Hz Hzero) as [Hrun | Hrun]; [| right; assumption].
      rewrite effective_target_Some in Hrun.
      destruct (nonempty body); [| right; assumption].
      left. rewrite Htgt, Hxeq. simpl. rewrite append_assoc. simpl.
      apply zero_run_in_group. assumption.
  - apply bind_Ok in Hsub as (k & Hk & Hsub). injection Hsub as <-.
    simpl in Hn. destruct Hn as [<- | []].
    destruct (Hhere k Hk) as [H0 Hz]. split; [assumption |]. auto.
Qed.

(** ** Zero runs and number tokens *)

Lemma ends_tail (p : ascii -> bool) (c : ascii) (a : string) :
  ends p (String c a) = false -> ends p a = false.
Proof. simpl. destruct a; [reflexivity | simpl; trivial]. Qed.

Lemma ends_span_snd (p q : ascii -> bool) (a : string) :
  ends p a = false -> ends p (snd (span q a)) = false.
Proof.
  intros H. rewrite <- (span_append q a), ends_append in H.
  destruct (snd (span q a)); [reflexivity | assumption].
Qed.

(** A span that stops inside [a], or at the start of [y], is the span of
    [a]. *)
Lemma span_append_left (p : ascii -> bool) (a y : string) :
  nonempty (snd (span p a)) = true \/ starts p y = false ->
  span p (a ++ y) = (fst (span p a), snd (span p a) ++ y).
Proof.
  induction a as [| c a IH]; simpl; intros H.
  - destruct H as [H | H]; [discriminate |]. apply span_not_starts. assumption.
  - destruct (p c); [| reflexivity].
    destruct (span p a) as [run rest] eqn:Hspan. simpl in *.
    rewrite (IH H). reflexivity.
Qed.

Lemma span_stops_inside (p : ascii -> bool) (a : string) :
  nonempty a = true -> ends p a = false -> nonempty (snd (span p a)) = true.
Proof.
  induction a as [| c a IH]; [discriminate |]. intros _ Hend. simpl.
  destruct (p c) eqn:Hc; [| reflexivity].
  destruct a as [| c' a]; [simpl in Hend; congruence |].
  specialize (IH eq_refl Hend).
  destruct (span p (String c' a)) as [run rest]. assumption.
Qed.

(** The tokenizer cuts a maximal run of zeros out as one token. *)
Lemma zero_run_token (a z b : string) :
  is_zero_number z = true ->
  ends is_decimal a = false -> starts is_decimal b = false ->
  In z (_gettokens (a ++ z ++ b)).
Proof.
  intros Hz Ha Hb.
  remember (String.length a) as n eqn:Hn.
  revert a Hn Ha; induction n as [n IH] using lt_wf_ind; intros a Hn Ha.
  unfold is_zero_number in Hz. apply andb_prop in Hz as [Hzne Hzeros].
  destruct z as [| z0 z]; [discriminate |].
  simpl in Hzeros. apply andb_prop in Hzeros as [Hz0 Hzeros].
  pose proof (zero_is_decimal z0 Hz0) as Hz0dec.
  destruct a as [| c a].
  - (* the run starts here *)
    simpl append. rewrite gettokens_cons, token_re_cons.
    rewrite (decimal_not_upper z0 Hz0dec), Hz0dec.
    rewrite (span_stop is_decimal z b (zeros_decimal z Hzeros) Hb).
    left. reflexivity.
  - simpl in Hn. simpl append. rewrite gettokens_cons, token_re_cons.
    pose proof (ends_tail _ _ _ Ha) as Ha'.
    destruct (is_upper c) eqn:Hup; [| destruct (is_decimal c) eqn:Hdec;
      [| destruct (Ascii.eqb "(" c || Ascii.eqb ")" c || negb (is_space c))%bool]].
    + rewrite (span_append_left is_lower a (String z0 (z ++ b))).
      2:{ right. simpl. apply decimal_not_lower. assumption. }
      simpl fst; simpl snd. right.
      pose proof (span_snd_length is_lower a) as Hlen.
      apply (IH (String.length (snd (span is_lower a)))); [lia | reflexivity |].
      apply ends_span_snd. assumption.
    + assert (Hane : nonempty a = true).
      { destruct a; [simpl in Ha; congruence | reflexivity]. }
      rewrite (span_append_left is_decimal a (String z0 (z ++ b))).
      2:{ left. apply span_stops_inside; assumption. }
      simpl fst; simpl snd. right.
      pose proof (span_snd_length is_decimal a) as Hlen.
      apply (IH (String.length (snd (span is_decimal a)))); [lia | reflexivity |].
      apply ends_span_snd. assumption.
    + right. apply (IH (String.length a)); [lia | reflexivity | assumption].
    + apply (IH (String.length a)); [lia | reflexivity | assumption].
Qed.

Lemma no_zero_number_no_run (self : string) :
  no_zero_number self = true -> ~ zero_run self.
Proof.
  unfold no_zero_number. intros Hall (a & z & b & -> & Hz & Ha & Hb).
  rewrite forallb_forall in Hall.
  specialize (Hall z (zero_run_token a z b Hz Ha Hb)).
  rewrite Hz in Hall. discriminate.
Qed.

(** ** When the tree builder returns *)

Lemma map_result_intro {A B : Type} (f : A -> result B) (l : list A) (bs : list B) :
  Forall2 (fun a b => f a = Ok b) l bs -> map_result f l = Ok bs.
Proof.
  induction 1 as [| a b l bs Hab _ IH]; simpl; [reflexivity |].
  rewrite Hab. simpl. rewrite IH. reflexivity.
Qed.

Lemma map_result_all_Ok {A B : Type} (f : A -> result B) (l : list A) :
  (forall a, In a l -> exists b, f a = Ok b) -> exists bs, map_result f l = Ok bs.
Proof.
  induction l as [| a l IH]; intros H; [exists []; reflexivity |].
  destruct (H a (or_introl eq_refl)) as (b & Hb).
  destruct IH as (bs & Hbs); [intros x Hx; apply H; right; assumption |].
  exists (b :: bs). simpl. rewrite Hb. simpl. rewrite Hbs. reflexivity.
Qed.

(** When every item returns, or raises an exception of some kind, so
    does the traversal. *)
Lemma map_result_cases {A B : Type} (f : A -> result B) (P : exn -> Prop)
    (l : list A) :
  (forall a, In a l -> (exists b, f a = Ok b) \/ (exists e, f a = Raise e /\ P e)) ->
  (exists bs, map_result f l = Ok bs) \/
  (exists e, map_result f l = Raise e /\ P e).
Proof.
  induction l as [| a l IH]; intros H; [left; exists []; reflexivity |].
  destruct (H a (or_introl eq_refl)) as [(b & Hb) | (e & Hb & He)].
  - destruct IH as [(bs & Hbs) | (e & Hbs & He)];
      [intros x Hx; apply H; right; assumption | |].
    + left. exists (b :: bs). simpl. rewrite Hb. simpl. rewrite Hbs. reflexivity.
    + right. exists e. split; [simpl; rewrite Hb; simpl; rewrite Hbs; reflexivity |].
      assumption.
  - right. exists e. split; [simpl; rewrite Hb; reflexivity | assumption].
Qed.

Lemma Forall2_map_right {A B : Type} (R : A -> B -> Prop) (f : A -> B) (l : list A) :
  (forall a, In a l -> R a (f a)) -> Forall2 R l (map f l).
Proof.
  induction l as [| a l IH]; intros H; simpl; constructor.
  - apply H. left. reflexivity.
  - apply IH. intros x Hx. apply H. right. assumption.
Qed.

Lemma Forall2_eq_map {A B : Type} (R : A -> B -> Prop) (f : A -> B) (l : list A)
    (l' : list B) :
  (forall a b, In a l -> R a b -> b = f a) -> Forall2 R l l' -> l' = map f l.
Proof.
  intros H HR. induction HR as [| a b l l' Hab _ IH]; [reflexivity |].
  simpl. rewrite (H a b (or_introl eq_refl) Hab). f_equal.
  apply IH. intros x y Hx. apply H. right. assumption.
Qed.

(** *** Reading a number *)

Lemma count_digits_decimal (s : string) :
  str_forall is_decimal s = true -> count_digits s = String.length s.
Proof.
  induction s as [| c s IH]; cbn [str_forall count_digits String.length];
    [reflexivity |].
  intros H. apply andb_prop in H as [Hc Hs]. rewrite Hc, (IH Hs). reflexivity.
Qed.

(** [int] reads the decimal value: what it has read so far moves up by
    one place for each digit that follows. *)
Lemma int_digits_value (s : string) (acc : Z) :
  str_forall is_decimal s = true ->
  int_digits acc s = Some (acc * 10 ^ Z.of_nat (String.length s) + dec_value s).
Proof.
  revert acc; induction s as [| c s IH];
    cbn [str_forall int_digits dec_value String.length]; intros acc H.
  - f_equal. change (Z.of_nat 0) with 0. rewrite Z.pow_0_r. lia.
  - apply andb_prop in H as [Hc Hs]. rewrite Hc, (IH _ Hs). f_equal.
    rewrite Nat2Z.inj_succ, Z.pow_succ_r by apply Nat2Z.is_nonneg. ring.
Qed.

Lemma dec_value_nonneg (s : string) :
  str_forall is_decimal s = true -> 0 <= dec_value s.
Proof.
  induction s as [| c s IH]; cbn [str_forall dec_value]; [lia |].
  intros H. apply andb_prop in H as [Hc Hs].
  destruct (decimal_value c Hc) as [Hv _]. specialize (IH Hs).
  assert (0 <= 10 ^ Z.of_nat (String.length s)) by (apply Z.pow_nonneg; lia).
  nia.
Qed.

Lemma zero_digit_value (c : ascii) : Ascii.eqb "0" c = true -> digit_value c = 0.
Proof. intros H. apply Ascii.eqb_eq in H. subst c. reflexivity. Qed.

(** A string of digits has the value 0 exactly when all its digits
    are 0. *)
Lemma dec_value_zero (s : string) :
  str_forall is_decimal s = true ->
  (dec_value s = 0 <-> str_forall (Ascii.eqb "0") s = true).
Proof.
  induction s as [| c s IH]; cbn [str_forall dec_value]; [tauto |].
  intros H. apply andb_prop in H as [Hc Hs].
  destruct (decimal_value c Hc) as [Hv Hv0]. specialize (IH Hs).
  pose proof (dec_value_nonneg s Hs) as Hs0.
  assert (Hpow : 0 < 10 ^ Z.of_nat (String.length s))
    by (apply Z.pow_pos_nonneg; lia).
  split.
  - intros Hsum.
    assert (Hc0 : digit_value c = 0) by nia.
    rewrite (Hv0 Hc0). cbn [andb]. apply IH. nia.
  - intros Hall. apply andb_prop in Hall as [Hc0 Hz].
    rewrite (zero_digit_value c Hc0), (proj2 IH Hz). lia.
Qed.

(** What [numfor] does with the digits the pattern captured: it
    returns the multiplier they stand for, unless there are more than
    4300 of them. *)
Lemma numfor_outcome (ds : string) :
  str_forall is_decimal ds = true ->
  (Z.of_nat (String.length ds) <= int_max_str_digits /\
   numfor ds = Ok (mult_of ds)) \/
  (int_max_str_digits < Z.of_nat (String.length ds) /\
   numfor ds = Raise (int_limit_error (String.length ds))).
Proof.
  intros H. destruct ds as [| c ds].
  - left. split; [unfold int_max_str_digits; simpl; lia | reflexivity].
  - unfold numfor. change (String.eqb (String c ds) "") with false. cbv iota.
    unfold py_int. rewrite (count_digits_decimal _ H).
    destruct (Z.ltb_spec int_max_str_digits (Z.of_nat (String.length (String c ds))))
      as [Hlong | Hshort]; [right; split; [assumption | reflexivity] |].
    left. split; [assumption |].
    rewrite (int_digits_value _ 0 H). reflexivity.
Qed.

Lemma numfor_Ok_value (ds : string) (k : Z) :
  str_forall is_decimal ds = true -> numfor ds = Ok k -> k = mult_of ds.
Proof.
  intros H Hk. destruct (numfor_outcome ds H) as [[_ Hok] | [_ Hraise]];
    congruence.
Qed.

Lemma findall_tree_re_In (g ds target : string) :
  In (g, ds) (findall tree_re target) ->
  str_forall is_decimal ds = true /\
  (if starts_with_paren g
   then exists pre body post,
          g = String "(" (body ++ String ")" EmptyString) /\
          str_forall not_close body = true /\
          target = pre ++ String "(" (body ++ String ")" post)
   else True).
Proof.
  intros Hin.
  apply (findall_In tree_re tree_re_consumes) in Hin as (pre & x & rest & Htgt & Hx).
  split; [eapply tree_re_digits; eassumption |].
  apply tree_re_spec in Hx as (Hxeq & _ & _ & _ & Hparen).
  destruct (starts_with_paren g); [| exact I].
  destruct Hparen as (body & Hg & Hclose).
  exists pre, body, (ds ++ rest). split; [assumption |]. split; [assumption |].
  rewrite Htgt, Hxeq, Hg. simpl. rewrite append_assoc. reflexivity.
Qed.

(** *** Runs of digits *)

(** The digits of a match are a maximal run of digits of the target. *)
Lemma match_digit_run (g ds target : string) :
  In (g, ds) (findall tree_re target) -> nonempty ds = true ->
  digit_run target ds.
Proof.
  intros Hin Hne.
  apply (findall_In tree_re tree_re_consumes) in Hin as (pre & x & rest & Htgt & Hx).
  pose proof (tree_re_digits _ _ _ _ Hx) as Hds.
  apply tree_re_spec in Hx as (Hxeq & Hg & Hend & Hstop & _).
  exists (pre ++ g), rest. repeat split; try assumption.
  - rewrite Htgt, Hxeq, append_assoc. reflexivity.
  - rewrite ends_append, Hg. assumption.
Qed.

Lemma digit_run_in_group (pre body post z : string) :
  digit_run body z ->
  digit_run (pre ++ String "(" (body ++ String ")" post)) z.
Proof.
  intros (a & b & -> & Hne & Hz & Ha & Hb).
  exists (pre ++ String "(" a), (b ++ String ")" post). repeat split; try assumption.
  - rewrite !append_assoc. simpl. rewrite ?append_assoc. reflexivity.
  - rewrite ends_append. simpl. destruct a; [reflexivity | assumption].
  - rewrite starts_append. destruct b; [reflexivity | assumption].
Qed.

(** The tokenizer cuts a maximal run of digits out as one token. *)
Lemma digit_run_token (s z : string) : digit_run s z -> In z (_gettokens s).
Proof.
  intros (a & b & -> & Hne & Hz & Ha & Hb).
  remember (String.length a) as n eqn:Hn.
  revert a Hn Ha; induction n as [n IH] using lt_wf_ind; intros a Hn Ha.
  destruct z as [| z0 z]; [discriminate |].
  cbn [str_forall] in Hz. apply andb_prop in Hz as [Hz0 Hzs].
  destruct a as [| c a].
  - simpl append. rewrite gettokens_cons, token_re_cons.
    rewrite (decimal_not_upper z0 Hz0), Hz0.
    rewrite (span_stop is_decimal z b Hzs Hb). left. reflexivity.
  - simpl in Hn. simpl append. rewrite gettokens_cons, token_re_cons.
    pose proof (ends_tail _ _ _ Ha) as Ha'.
    destruct (is_upper c) eqn:Hup; [| destruct (is_decimal c) eqn:Hdec;
      [| destruct (Ascii.eqb "(" c || Ascii.eqb ")" c || negb (is_space c))%bool]].
    + rewrite (span_append_left is_lower a (String z0 (z ++ b))).
      2:{ right. simpl. apply decimal_not_lower. assumption. }
      simpl fst; simpl snd. right.
      pose proof (span_snd_length is_lower a) as Hlen.
      apply (IH (String.length (snd (span is_lower a)))); [lia | reflexivity |].
      apply ends_span_snd. assumption.
    + assert (Hane : nonempty a = true).
      { destruct a; [simpl in Ha; congruence | reflexivity]. }
      rewrite (span_append_left is_decimal a (String z0 (z ++ b))).
      2:{ left. apply span_stops_inside; assumption. }
      simpl fst; simpl snd. right.
      pose proof (span_snd_length is_decimal a) as Hlen.
      apply (IH (String.length (snd (span is_decimal a)))); [lia | reflexivity |].
      apply ends_span_snd. assumption.
    + right. apply (IH (String.length a)); [lia | reflexivity | assumption].
    + apply (IH (String.length a)); [lia | reflexivity | assumption].
Qed.

Lemma short_numbers_runs (self : string) :
  short_numbers self = true -> runs_short self.
Proof.
  unfold short_numbers. intros Hall z Hrun. rewrite forallb_forall in Hall.
  pose proof (Hall z (digit_run_token self z Hrun)) as Hz.
  destruct Hrun as (_ & _ & _ & Hne & Hdec & _).
  destruct z as [| c z]; [discriminate |].
  cbn [str_forall] in Hdec. apply andb_prop in Hdec as [Hc _].
  cbn [starts] in Hz. rewrite Hc in Hz. cbn [negb orb] in Hz.
  apply Z.leb_le. assumption.
Qed.

Lemma runs_short_group (pre body post : string) :
  runs_short (pre ++ String "(" (body ++ String ")" post)) -> runs_short body.
Proof.
  intros H z Hz. apply H, digit_run_in_group. assumption.
Qed.

(** In a target without long runs, [numfor] returns on the digits of
    every match. *)
Lemma match_numfor (g ds target : string) :
  runs_short target -> In (g, ds) (findall tree_re target) ->
  numfor ds = Ok (mult_of ds).
Proof.
  intros Hshort Hin. destruct ds as [| c ds]; [reflexivity |].
  pose proof (proj1 (findall_tree_re_In _ _ _ Hin)) as Hds.
  pose proof (Hshort _ (match_digit_run _ _ _ Hin eq_refl)) as Hlen.
  destruct (numfor_outcome _ Hds) as [[_ Hok] | [Hlong _]]; [assumption | lia].
Qed.

(** *** What the tree builder raises *)

(** [_tokentree] raises nothing but [RecursionError] and the
    [ValueError] of [int] on a run of more than 4300 digits. *)
Lemma tokentree_raises_only (depth : nat) (self : string) :
  forall target : option string,
    (exists tree, _tokentree depth self target = Ok tree) \/
    (exists e, _tokentree depth self target = Raise e /\
               (e = RecursionError \/ exists n, e = int_limit_error n)).
Proof.
  induction depth as [| d IH]; intros target.
  { right. exists RecursionError. split; [reflexivity | left; reflexivity]. }
  rewrite tokentree_S. apply map_result_cases.
  intros [g ds] Hin. apply findall_tree_re_In in Hin as [Hds _].
  unfold _tokensubtree. simpl fst; simpl snd.
  assert (Hnum : (exists k, numfor ds = Ok k) \/
                 (exists e, numfor ds = Raise e /\
                            (e = RecursionError \/ exists n, e = int_limit_error n))).
  { destruct (numfor_outcome ds Hds) as [[_ ->] | [_ ->]].
    - left. eexists. reflexivity.
    - right. eexists. split; [reflexivity |]. right. eexists. reflexivity. }
  destruct (starts_with_paren g).
  - destruct (IH (Some (slice_1_m1 g))) as [(sub & ->) | (e & -> & He)];
      [| right; exists e; split; [reflexivity | assumption]].
    cbn [bind]. destruct Hnum as [(k & ->) | (e & -> & He)].
    + left. eexists. reflexivity.
    + right. exists e. split; [reflexivity | assumption].
  - destruct Hnum as [(k & ->) | (e & -> & He)].
    + left. eexists. reflexivity.
    + right. exists e. split; [reflexivity | assumption].
Qed.

(** More call depth does not change a tree that was built. *)
Lemma tokentree_mono (depth : nat) (self : string) :
  forall (target : option string) (tree : tokentree),
    _tokentree depth self target = Ok tree ->
    _tokentree (S depth) self target = Ok tree.
Proof.
  induction depth as [| d IH]; intros target tree H; [discriminate |].
  rewrite tokentree_S in H |- *. apply map_result_Ok in H.
  apply map_result_intro.
  eapply Forall2_impl; [| exact H]. intros [g ds] n Hn.
  unfold _tokensubtree in Hn |- *. simpl fst in *; simpl snd in *.
  destruct (starts_with_paren g); [| assumption].
  apply bind_Ok in Hn as (sub & Hsub & Hn).
  rewrite (IH _ _ Hsub). assumption.
Qed.

(** A match in a target without a closing parenthesis is no group. *)
Lemma match_in_body (g ds body : string) :
  str_forall not_close body = true -> In (g, ds) (findall tree_re body) ->
  starts_with_paren g = false.
Proof.
  intros Hclose Hin. apply findall_tree_re_In in Hin as [_ Hparen].
  destruct (starts_with_paren g); [| reflexivity].
  exfalso. destruct Hparen as (pre & b & post & _ & _ & ->).
  assert (Habs : not_close ")" = true); [| discriminate Habs].
  apply (str_forall_middle not_close (pre ++ String "(" b) ")" post).
  rewrite append_assoc. exact Hclose.
Qed.

(** A target without a closing parenthesis and without long runs: one
    call builds its tree, a list of symbols. *)
Lemma tokentree_flat (d : nat) (self body : string) :
  nonempty body = true -> str_forall not_close body = true -> runs_short body ->
  _tokentree (S d) self (Some body) = Ok (map leaf_of (findall tree_re body)).
Proof.
  intros Hne Hclose Hshort. rewrite tokentree_S, effective_target_Some, Hne.
  apply map_result_intro, Forall2_map_right. intros [g ds] Hin.
  unfold _tokensubtree. simpl fst; simpl snd.
  rewrite (match_in_body g ds body Hclose Hin), (match_numfor g ds body Hshort Hin).
  reflexivity.
Qed.

(** The tree of such a target, when it is built, is that list. *)
Lemma tokentree_body_value (depth : nat) (self body : string) (sub : tokentree) :
  nonempty body = true -> str_forall not_close body = true ->
  _tokentree depth self (Some body) = Ok sub ->
  sub = map leaf_of (findall tree_re body).
Proof.
  intros Hne Hclose H. destruct depth as [| d]; [discriminate |].
  rewrite tokentree_S, effective_target_Some, Hne in H.
  apply map_result_Ok in H.
  apply (Forall2_eq_map _ leaf_of _ _) in H; [assumption |].
  intros [g ds] n Hin Hn.
  unfold _tokensubtree in Hn. simpl fst in Hn; simpl snd in Hn.
  rewrite (match_in_body g ds body Hclose Hin) in Hn.
  apply bind_Ok in Hn as (k & Hk & Hn). injection Hn as <-.
  rewrite (numfor_Ok_value ds k (proj1 (findall_tree_re_In _ _ _ Hin)) Hk).
  reflexivity.
Qed.

(** With an empty group no tree is ever built. *)
Lemma tokentree_empty_group_not_Ok (self : string) :
  has_empty_group self = true ->
  forall (depth : nat) (target : option string) (tree : tokentree),
    falsy target = true -> _tokentree depth self target <> Ok tree.
Proof.
  intros Hempty. induction depth as [| d IH]; intros target tree Hf H;
    [discriminate |].
  rewrite tokentree_S in H. unfold effective_target in H. rewrite Hf in H.
  apply map_result_Ok in H.
  unfold has_empty_group in Hempty.
  apply existsb_exists in Hempty as ([g ds] & Hin & Hg).
  simpl in Hg. apply String.eqb_eq in Hg. subst g.
  destruct (Forall2_In_left _ _ _ _ H Hin) as (n & _ & Hn).
  unfold _tokensubtree in Hn.
  change (starts_with_paren (fst ("()", ds))) with true in Hn. cbv iota in Hn.
  change (slice_1_m1 (fst ("()", ds))) with "" in Hn.
  apply bind_Ok in Hn as (sub & Hsub & _).
  apply (IH (Some EmptyString) sub eq_refl Hsub).
Qed.

(** The tree of a formula, when it is built, is the tree written out
    from the matches. *)
Lemma tokentree_value (depth : nat) (self : string) (tree : tokentree) :
  _tokentree depth self None = Ok tree -> tree = matches_tree self.
Proof.
  intros H. destruct depth as [| d]; [discriminate |].
  rewrite tokentree_S in H. change (effective_target self None) with self in H.
  apply map_result_Ok in H. unfold matches_tree.
  apply (Forall2_eq_map _ node_of _ _) in H; [assumption |].
  intros [g ds] n Hin Hn.
  pose proof (findall_tree_re_In _ _ _ Hin) as [Hds Hparen].
  unfold _tokensubtree in Hn. unfold node_of, leaf_of.
  simpl fst in *; simpl snd in *.
  destruct (starts_with_paren g).
  - destruct Hparen as (pre & body & post & -> & Hclose & _).
    apply bind_Ok in Hn as (sub & Hsub & Hn).
    apply bind_Ok in Hn as (k & Hk & Hn). injection Hn as <-.
    rewrite (numfor_Ok_value ds k Hds Hk).
    unfold slice_1_m1 in *. simpl str_tail in *.
    rewrite str_init_append_single in *.
    destruct body as [| c body].
    + exfalso.
      assert (Hgroup : has_empty_group self = true).
      { unfold has_empty_group. apply existsb_exists.
        exists ("()", ds). split; [exact Hin | reflexivity]. }
      apply (tokentree_empty_group_not_Ok self Hgroup d (Some EmptyString) sub
               eq_refl Hsub).
    + rewrite (tokentree_body_value d self (String c body) sub eq_refl Hclose Hsub).
      reflexivity.
  - apply bind_Ok in Hn as (k & Hk & Hn). injection Hn as <-.
    rewrite (numfor_Ok_value ds k Hds Hk). reflexivity.
Qed.

(** Without an empty group and without long runs, two levels of calls
    build the tree. *)
Lemma tokentree_returns (self : string) :
  has_empty_group self = false -> runs_short self ->
  forall d, _tokentree (2 + d) self None = Ok (matches_tree self).
Proof.
  intros Hempty Hshort d. change (2 + d)%nat with (S (S d)).
  rewrite tokentree_S. change (effective_target self None) with self.
  apply map_result_intro, Forall2_map_right. intros [g ds] Hin.
  assert (Hg : String.eqb g "()" = false).
  { unfold has_empty_group in Hempty.
    destruct (String.eqb g "()") eqn:Heq; [| reflexivity].
    assert (existsb (fun tt => String.eqb (fst tt) "()")
              (findall tree_re self) = true); [| congruence].
    apply existsb_exists. exists (g, ds). split; assumption. }
  pose proof (findall_tree_re_In _ _ _ Hin) as [Hds Hparen].
  unfold _tokensubtree, node_of, leaf_of. simpl fst; simpl snd.
  rewrite (match_numfor g ds self Hshort Hin).
  destruct (starts_with_paren g); [| reflexivity].
  destruct Hparen as (pre & body & post & -> & Hclose & Hself).
  unfold slice_1_m1. simpl str_tail. rewrite str_init_append_single.
  rewrite (tokentree_flat d self body);
    [reflexivity | destruct body; [discriminate | reflexivity] | assumption |].
  rewrite Hself in Hshort. apply (runs_short_group _ _ _ Hshort).
Qed.

Lemma tokentree_returns_short (self : string) :
  has_empty_group self = false -> short_numbers self = true ->
  exists tree, forall d, _tokentree (2 + d) self None = Ok tree.
Proof.
  intros Hgroup Hshort. exists (matches_tree self).
  apply (tokentree_returns self Hgroup), short_numbers_runs, Hshort.
Qed.

(** Without long runs, [_tokentree] on the formula raises nothing but
    [RecursionError]. *)
Lemma tokentree_short_outcome (self : string) :
  runs_short self ->
  forall (depth : nat) (target : option string),
    falsy target = true ->
    (exists tree, _tokentree depth self target = Ok tree) \/
    _tokentree depth self target = Raise RecursionError.
Proof.
  intros Hshort. induction depth as [| d IH]; intros target Hf; [right; reflexivity |].
  rewrite tokentree_S. unfold effective_target. rewrite Hf.
  destruct (map_result_cases (_tokensubtree d self) (fun e => e = RecursionError)
              (findall tree_re self)) as [Hok | (e & -> & ->)];
    [| left; assumption | right; reflexivity].
  intros [g ds] Hin.
  pose proof (findall_tree_re_In _ _ _ Hin) as [_ Hparen].
  unfold _tokensubtree. simpl fst; simpl snd.
  rewrite (match_numfor g ds self Hshort Hin).
  destruct (starts_with_paren g); [| left; eexists; reflexivity].
  destruct Hparen as (pre & body & post & -> & Hclose & Hself).
  unfold slice_1_m1. simpl str_tail. rewrite str_init_append_single.
  destruct body as [| c body].
  - destruct (IH (Some EmptyString) eq_refl) as [(sub & ->) | ->];
      [left; eexists; reflexivity |].
    right. exists RecursionError. split; reflexivity.
  - destruct d as [| d'].
    + right. exists RecursionError. split; reflexivity.
    + rewrite (tokentree_flat d' self (String c body) eq_refl Hclose).
      * left. eexists. reflexivity.
      * rewrite Hself in Hshort. apply (runs_short_group _ _ _ Hshort).
Qed.

(** With an empty group and no long run the recursion never ends,
    whatever the depth. *)
Lemma tokentree_diverges (self : string) :
  has_empty_group self = true -> runs_short self ->
  forall (depth : nat) (target : option string),
    falsy target = true -> _tokentree depth self target = Raise RecursionError.
Proof.
  intros Hempty Hshort depth target Hf.
  destruct (tokentree_short_outcome self Hshort depth target Hf)
    as [(tree & Htree) | Hraise]; [| assumption].
  exfalso. apply (tokentree_empty_group_not_Ok self Hempty depth target tree Hf Htree).
Qed.

(** C4, amended. When the tree pattern finds no empty group in the
    formula and no Number token has more than 4300 digits, the tree
    builder returns a tree at every call depth from 2 on.  A tree it
    returns is the tree written out from the matches of the tree
    pattern: each node carries the multiplier of the digit run that
    follows its own symbol or group, which is 1 when there is no digit
    and the decimal value of the run otherwise.  So every multiplier is
    a natural number, and it is 0 exactly for a node whose own digit
    run consists of zeros. *)
Theorem multipliers_positive (self : string) :
  (has_empty_group self = false -> short_numbers self = true ->
   forall d, _tokentree (2 + d) self None = Ok (matches_tree self)) /\
  (forall depth tree, _tokentree depth self None = Ok tree ->
     tree = matches_tree self /\
     Forall (fun n => 0 <= multiplier n) (nodes tree)) /\
  mult_of "" = 1 /\
  (forall ds, nonempty ds = true -> str_forall is_decimal ds = true ->
     mult_of ds = dec_value ds /\ 0 <= mult_of ds /\
     (mult_of ds = 0 <-> is_zero_number ds = true)).
Proof.
  split; [| split; [| split]].
  - intros Hgroup Hshort.
    apply (tokentree_returns self Hgroup), short_numbers_runs, Hshort.
  - intros depth tree Htree.
    split; [apply (tokentree_value depth); assumption |].
    apply Forall_forall. intros n Hn.
    apply (tokentree_multipliers depth self None tree Htree n Hn).
  - reflexivity.
  - intros ds Hne Hds.
    unfold mult_of, is_zero_number. rewrite Hne. cbn [andb].
    split; [reflexivity |]. split; [apply dec_value_nonneg; assumption |].
    apply dec_value_zero. assumption.
Qed.

Lemma multipliers_positive_witness :
  _tokentree 2 "H0O12(OH)" None = Ok (matches_tree "H0O12(OH)") /\
  matches_tree "H0O12(OH)"
    = [Symbol "H" 0; Symbol "O" 12; Group [Symbol "O" 1; Symbol "H" 1] 1] /\
  dec_value "12" = 12 /\ (mult_of "0" = 0 <-> is_zero_number "0" = true).
Proof.
  destruct (multipliers_positive "H0O12(OH)") as (Hreturns & _ & _ & Hmult).
  split; [apply (Hreturns eq_refl eq_refl 0%nat) |].
  split; [vm_compute; reflexivity |]. split; [vm_compute; reflexivity |].
  exact (proj2 (proj2 (Hmult "0" eq_refl eq_refl))).
Defined.

(** * Further properties of the module *)

(** ** The tokenizer loses nothing but white space *)

Lemma join_cons (t : string) (ts : list string) : join (t :: ts) = t ++ join ts.
Proof. reflexivity. Qed.

Lemma str_forall_impl (p q : ascii -> bool) (s : string) :
  (forall c, p c = true -> q c = true) ->
  str_forall p s = true -> str_forall q s = true.
Proof.
  intros Hpq. induction s as [| c s IH]; simpl; [reflexivity |].
  intros H. apply andb_prop in H as [Hc Hs]. rewrite (Hpq c Hc), (IH Hs). reflexivity.
Qed.

Lemma upper_not_space (c : ascii) : is_upper c = true -> negb (is_space c) = true.
Proof. by_ascii c. Qed.

Lemma lower_not_space (c : ascii) : is_lower c = true -> negb (is_space c) = true.
Proof. by_ascii c. Qed.

Lemma decimal_not_space (c : ascii) : is_decimal c = true -> negb (is_space c) = true.
Proof. by_ascii c. Qed.

Lemma single_not_space (c : ascii) :
  (Ascii.eqb "(" c || Ascii.eqb ")" c || negb (is_space c))%bool = true ->
  negb (is_space c) = true.
Proof. by_ascii c. Qed.

Lemma single_is_space (c : ascii) :
  (Ascii.eqb "(" c || Ascii.eqb ")" c || negb (is_space c))%bool = false ->
  is_space c = true.
Proof. by_ascii c. Qed.

Lemma remove_space_append (t r : string) :
  str_forall (fun c => negb (is_space c)) t = true ->
  remove_space (t ++ r) = t ++ remove_space r.
Proof.
  induction t as [| c t IH]; simpl; [reflexivity |].
  intros H. apply andb_prop in H as [Hc Ht].
  apply negb_true_iff in Hc. rewrite Hc, (IH Ht). reflexivity.
Qed.

(** What the token pattern matches is a token, free of white space,
    and the text goes on right after it. *)
Lemma token_re_spec (s t rest : string) :
  token_re s = Some (t, rest) ->
  s = t ++ rest /\ is_token t = true /\
  str_forall (fun c => negb (is_space c)) t = true.
Proof.
  destruct s as [| c s]; [discriminate |]. rewrite token_re_cons.
  destruct (is_upper c) eqn:Hup; [| destruct (is_decimal c) eqn:Hdec;
    [| destruct (Ascii.eqb "(" c || Ascii.eqb ")" c || negb (is_space c))%bool eqn:Hone]];
    intros H; try discriminate; injection H as <- <-.
  - pose proof (span_fst_forall is_lower s) as Hlow.
    split; [simpl; rewrite span_append; reflexivity |]. split.
    + simpl. rewrite Hup, Hlow. reflexivity.
    + simpl. rewrite (upper_not_space c Hup).
      apply (str_forall_impl is_lower); [apply lower_not_space | assumption].
  - pose proof (span_fst_forall is_decimal s) as Hds.
    split; [simpl; rewrite span_append; reflexivity |]. split.
    + simpl. rewrite Hup, Hdec, Hds. reflexivity.
    + simpl. rewrite (decimal_not_space c Hdec).
      apply (str_forall_impl is_decimal); [apply decimal_not_space | assumption].
  - pose proof (single_not_space c Hone) as Hsp.
    split; [reflexivity |]. split.
    + simpl. rewrite Hsp. rewrite !orb_true_r. reflexivity.
    + simpl. rewrite Hsp. reflexivity.
Qed.

Lemma gettokens_join (s : string) : join (_gettokens s) = remove_space s.
Proof.
  remember (String.length s) as n eqn:Hn.
  revert s Hn; induction n as [n IH] using lt_wf_ind; intros s Hn.
  destruct s as [| c s]; [reflexivity |].
  rewrite gettokens_cons.
  destruct (token_re (String c s)) as [[t rest] |] eqn:Hre.
  - pose proof (m_shrinks token_re token_re_consumes _ _ _ Hre) as Hlt.
    apply token_re_spec in Hre as (Hs & _ & Hsp).
    rewrite join_cons, (IH (String.length rest) ltac:(lia) rest eq_refl).
    rewrite Hs. symmetry. apply remove_space_append. assumption.
  - rewrite token_re_cons in Hre.
    destruct (is_upper c); [discriminate |]. destruct (is_decimal c); [discriminate |].
    destruct (Ascii.eqb "(" c || Ascii.eqb ")" c || negb (is_space c))%bool eqn:Hone;
      [discriminate |].
    simpl in Hn. simpl remove_space. rewrite (single_is_space c Hone).
    apply (IH (String.length s)); [lia | reflexivity].
Qed.

Lemma gettokens_shapes (s : string) :
  Forall (fun t => is_token t = true) (_gettokens s).
Proof.
  apply Forall_forall. intros t Hin.
  apply (findall_In token_re token_re_consumes) in Hin as (pre & x & rest & _ & Hx).
  apply token_re_spec in Hx as (_ & Ht & _). assumption.
Qed.

(** X1. The tokens of a formula, joined, are the formula without its
    white space, and each token is an element-shaped word, a run of
    decimal digits or a single character that is no white space. *)
Theorem gettokens_lossless (s : string) :
  join (_gettokens s) = remove_space s /\
  Forall (fun t => is_token t = true) (_gettokens s).
Proof.
  split; [apply gettokens_join | apply gettokens_shapes].
Qed.

(** ** Validation *)

Lemma is_valid_true (t : string) (b : bool) : _is_valid t = Ok b -> b = true.
Proof.
  unfold _is_valid.
  destruct (str_contains "()" t); [intros H; injection H as <-; reflexivity |].
  destruct (isdigit t); [intros H; injection H as <-; reflexivity |].
  destruct (negb (isalpha t)); [discriminate |].
  destruct (negb (dict_mem _atomic_mass t)); [discriminate |].
  intros H; injection H as <-; reflexivity.
Qed.

Lemma keep_is_valid (t : string) : keep t = true <-> _is_valid t = Ok true.
Proof.
  unfold keep. split.
  - destruct (_is_valid t) as [b |] eqn:H; [| discriminate].
    intros _. rewrite (is_valid_true t b H). reflexivity.
  - intros ->. reflexivity.
Qed.

(** What [_is_valid] raises: [ValueError] on a token that is not
    alphabetic, [KeyError] on an alphabetic one outside the table. *)
Lemma is_valid_Raise (t : string) (e : exn) :
  _is_valid t = Raise e ->
  (isalpha t = false /\ e = ValueError ("bad symbol " ++ t)) \/
  (isalpha t = true /\ dict_mem _atomic_mass t = false /\
   e = KeyError ("bad symbol " ++ t)).
Proof.
  unfold _is_valid.
  destruct (str_contains "()" t); [discriminate |].
  destruct (isdigit t); [discriminate |].
  destruct (isalpha t); simpl.
  - destruct (dict_mem _atomic_mass t); simpl; [discriminate |].
    intros H; injection H as <-. right. auto.
  - intros H; injection H as <-. left. auto.
Qed.

Lemma check_tokens_Ok (ts : list string) :
  Forall (fun t => keep t = true) ts -> check_tokens ts = Ok true.
Proof.
  induction 1 as [| t ts Ht _ IH]; simpl; [reflexivity |].
  apply keep_is_valid in Ht. rewrite Ht. simpl. assumption.
Qed.

Lemma check_tokens_Ok_inv (ts : list string) (b : bool) :
  check_tokens ts = Ok b -> b = true /\ Forall (fun t => keep t = true) ts.
Proof.
  induction ts as [| t ts IH]; simpl.
  - intros H; injection H as <-. split; constructor.
  - destruct (_is_valid t) as [v |] eqn:Hv; simpl; [| discriminate].
    pose proof (is_valid_true t v Hv) as ->. simpl. intros H.
    destruct (IH H) as [-> Hall]. split; [reflexivity |].
    constructor; [apply keep_is_valid; assumption | assumption].
Qed.

Lemma check_tokens_Raise (ts : list string) (e : exn) :
  check_tokens ts = Raise e ->
  exists pre t post,
    ts = (pre ++ t :: post)%list /\ Forall (fun x => keep x = true) pre /\
    _is_valid t = Raise e.
Proof.
  induction ts as [| t ts IH]; simpl; [discriminate |].
  destruct (_is_valid t) as [v |] eqn:Hv; simpl.
  - pose proof (is_valid_true t v Hv) as ->. simpl. intros H.
    destruct (IH H) as (pre & x & post & -> & Hpre & Hx).
    exists (t :: pre), x, post. split; [reflexivity |]. split; [| assumption].
    constructor; [apply keep_is_valid; assumption | assumption].
  - intros H; injection H as <-.
    exists [], t, ts. split; [reflexivity |]. split; [constructor | assumption].
Qed.

(** X2. When [check_symbols] raises, the exception is the one
    [_is_valid] raises on the leftmost token it rejects: [ValueError]
    when that token is not alphabetic, [KeyError] when it is alphabetic
    and no key of the table; every token before it is valid. *)
Theorem check_symbols_first_rejected (self : string) (e : exn) :
  check_symbols self = Raise e ->
  exists pre t post,
    _gettokens self = (pre ++ t :: post)%list /\
    Forall (fun x => _is_valid x = Ok true) pre /\
    ((isalpha t = false /\ e = ValueError ("bad symbol " ++ t)) \/
     (isalpha t = true /\ dict_mem _atomic_mass t = false /\
      e = KeyError ("bad symbol " ++ t))).
Proof.
  unfold check_symbols. intros H.
  apply check_tokens_Raise in H as (pre & t & post & Hts & Hpre & Ht).
  exists pre, t, post. split; [assumption |]. split.
  - eapply Forall_impl; [| exact Hpre]. intros x. apply keep_is_valid.
  - apply is_valid_Raise. assumption.
Qed.

Lemma check_symbols_first_rejected_witness :
  exists pre t post,
    _gettokens "H2$OXx" = (pre ++ t :: post)%list /\
    Forall (fun x => _is_valid x = Ok true) pre /\
    ((isalpha t = false /\
      ValueError "bad symbol $" = ValueError ("bad symbol " ++ t)) \/
     (isalpha t = true /\ dict_mem _atomic_mass t = false /\
      ValueError "bad symbol $" = KeyError ("bad symbol " ++ t))).
Proof.
  apply (check_symbols_first_rejected "H2$OXx" (ValueError "bad symbol $")).
  vm_compute. reflexivity.
Defined.

(** ** Sanitizing and validating *)

Lemma gettokens_after_digits (r : string) :
  Forall (fun t => keep t = true) (_gettokens r) ->
  Forall (fun t => keep t = true) (_gettokens (snd (span is_decimal r))).
Proof.
  destruct r as [| c r]; [trivial |]. simpl span.
  destruct (is_decimal c) eqn:Hc; [| trivial].
  rewrite gettokens_cons, token_re_cons, (decimal_not_upper c Hc), Hc.
  destruct (span is_decimal r) as [run rest]. simpl.
  intros H. apply Forall_inv_tail in H. assumption.
Qed.

(** Every token of a cleaned formula is one [clean_copy] keeps. *)
Lemma clean_copy_tokens_kept (s : string) :
  Forall (fun t => keep t = true) (_gettokens (clean_copy s)).
Proof.
  remember (String.length s) as n eqn:Hn.
  revert s Hn; induction n as [n IH] using lt_wf_ind; intros s Hn.
  destruct s as [| c s]; [constructor |].
  simpl in Hn. rewrite clean_copy_cons, token_re_cons.
  destruct (is_upper c) eqn:Hup; [| destruct (is_decimal c) eqn:Hdec;
    [| destruct (Ascii.eqb "(" c || Ascii.eqb ")" c || negb (is_space c))%bool eqn:Hone]].
  - pose proof (span_snd_length is_lower s) as Hlen.
    pose proof (IH (String.length (snd (span is_lower s))) ltac:(lia) _ eq_refl) as Hr.
    destruct (clean_copy_Clean (snd (span is_lower s))) as [_ Hlow].
    destruct (keep (String c (fst (span is_lower s)))) eqn:Hkeep; [| assumption].
    simpl append. rewrite gettokens_cons, token_re_cons, Hup.
    rewrite (span_stop is_lower _ _ (span_fst_forall is_lower s) Hlow).
    constructor; assumption.
  - pose proof (span_snd_length is_decimal s) as Hlen.
    pose proof (IH (String.length (snd (span is_decimal s))) ltac:(lia) _ eq_refl) as Hr.
    pose proof (span_fst_forall is_decimal s) as Hds.
    rewrite (keep_number c _ Hdec Hds).
    simpl append. rewrite gettokens_cons, token_re_cons, Hup, Hdec.
    rewrite (span_prefix is_decimal _ _ Hds). simpl fst; simpl snd.
    constructor; [| apply gettokens_after_digits; assumption].
    apply keep_number; [assumption |].
    rewrite str_forall_append, Hds. apply span_fst_forall.
  - pose proof (IH (String.length s) ltac:(lia) s eq_refl) as Hr.
    destruct (keep (String c EmptyString)) eqn:Hkeep; [| assumption].
    simpl append. rewrite gettokens_cons, token_re_cons, Hup, Hdec, Hone.
    constructor; assumption.
  - apply (IH (String.length s)); [lia | reflexivity].
Qed.

(** X3. What [clean_copy] returns always passes [check_symbols]. *)
Theorem clean_copy_passes_check (f : string) :
  check_symbols (clean_copy f) = Ok true.
Proof.
  unfold check_symbols. apply check_tokens_Ok, clean_copy_tokens_kept.
Qed.

Lemma goodsyms_all_kept (ts : list string) :
  Forall (fun t => keep t = true) ts -> goodsyms ts = ts.
Proof.
  induction 1 as [| t ts Ht _ IH]; [reflexivity |].
  rewrite goodsyms_cons, Ht, IH. reflexivity.
Qed.

Lemma goodsyms_length (ts : list string) :
  (String.length (join (goodsyms ts)) <= String.length (join ts))%nat.
Proof.
  induction ts as [| t ts IH]; [simpl; lia |].
  rewrite goodsyms_cons, join_cons. destruct (keep t).
  - rewrite join_cons, !length_append. lia.
  - rewrite length_append. lia.
Qed.

Lemma append_inv_head (t a b : string) : t ++ a = t ++ b -> a = b.
Proof.
  induction t as [| c t IH]; simpl; [trivial |].
  intros H. injection H as H. auto.
Qed.

(** Dropping a token shortens the text: nothing dropped means every
    token was kept. *)
Lemma goodsyms_same_join (ts : list string) :
  Forall (fun t => is_token t = true) ts ->
  join (goodsyms ts) = join ts -> Forall (fun t => keep t = true) ts.
Proof.
  induction 1 as [| t ts Ht _ IH]; [constructor |].
  rewrite goodsyms_cons, join_cons. destruct (keep t) eqn:Hkeep.
  - rewrite join_cons. intros H. apply append_inv_head in H. auto.
  - intros H. exfalso.
    pose proof (goodsyms_length ts) as Hlen.
    rewrite H, length_append in Hlen.
    destruct t; [discriminate | simpl in Hlen; lia].
Qed.

(** X4. [check_symbols] returns [True] exactly when [clean_copy] drops
    no token, that is, returns the formula without its white space; it
    never returns [False]. *)
Theorem check_symbols_iff_clean_copy (self : string) :
  (check_symbols self = Ok true <-> clean_copy self = remove_space self) /\
  check_symbols self <> Ok false.
Proof.
  split; [split |].
  - intros H. unfold check_symbols in H. apply check_tokens_Ok_inv in H as [_ Hall].
    unfold clean_copy. rewrite (goodsyms_all_kept _ Hall). apply gettokens_join.
  - intros H. unfold check_symbols. apply check_tokens_Ok.
    apply goodsyms_same_join; [apply gettokens_shapes |].
    unfold clean_copy in H. rewrite H. symmetry. apply gettokens_join.
  - intros H. unfold check_symbols in H.
    apply check_tokens_Ok_inv in H as [H _]. discriminate.
Qed.

(** ** The leaves of the tree and the tokens of the formula *)

Lemma node_nested_ind (P : node -> Prop) :
  (forall sym k, P (Symbol sym k)) ->
  (forall tree k, Forall P tree -> P (Group tree k)) ->
  forall n, P n.
Proof.
  intros Hsym Hgroup. fix IH 1. intros [sym k | tree k]; [apply Hsym |].
  apply Hgroup. induction tree as [| n tree IHtree]; constructor;
    [apply IH | apply IHtree].
Qed.

Lemma upper_not_decimal (c : ascii) : is_upper c = true -> is_decimal c = false.
Proof. by_ascii c. Qed.

(** The tokenizer cuts every element-shaped word out as one token. *)
Lemma symbol_at_token (s g : string) : symbol_at s g -> In g (_gettokens s).
Proof.
  intros (pre & c & low & rest & -> & -> & Hc & Hlow & Hrest).
  remember (String.length pre) as n eqn:Hn.
  revert pre Hn; induction n as [n IH] using lt_wf_ind; intros pre Hn.
  destruct pre as [| c' pre].
  - simpl append. rewrite gettokens_cons, token_re_cons, Hc.
    rewrite (span_stop is_lower low rest Hlow Hrest). left. reflexivity.
  - simpl in Hn. simpl append. rewrite gettokens_cons, token_re_cons.
    destruct (is_upper c') eqn:Hup; [| destruct (is_decimal c') eqn:Hdec;
      [| destruct (Ascii.eqb "(" c' || Ascii.eqb ")" c' || negb (is_space c'))%bool]].
    + rewrite (span_append_left is_lower pre (String c (low ++ rest))).
      2:{ right. simpl. apply upper_not_lower. assumption. }
      simpl fst; simpl snd. right.
      pose proof (span_snd_length is_lower pre) as Hlen.
      apply (IH (String.length (snd (span is_lower pre)))); [lia | reflexivity].
    + rewrite (span_append_left is_decimal pre (String c (low ++ rest))).
      2:{ right. simpl. apply upper_not_decimal. assumption. }
      simpl fst; simpl snd. right.
      pose proof (span_snd_length is_decimal pre) as Hlen.
      apply (IH (String.length (snd (span is_decimal pre)))); [lia | reflexivity].
    + right. apply (IH (String.length pre)); [lia | reflexivity].
    + apply (IH (String.length pre)); [lia | reflexivity].
Qed.

Lemma symbol_at_in_group (pre body post g : string) :
  symbol_at body g ->
  symbol_at (pre ++ String "(" (body ++ String ")" post)) g.
Proof.
  intros (a & c & low & rest & -> & -> & Hc & Hlow & Hrest).
  exists (pre ++ String "(" a), c, low, (rest ++ String ")" post).
  split; [| split; [reflexivity | split; [assumption | split; [assumption |]]]].
  - rewrite !append_assoc. simpl. rewrite !append_assoc. simpl.
    rewrite ?append_assoc. reflexivity.
  - rewrite starts_append. destruct rest; [reflexivity | assumption].
Qed.

(** A match of the tree pattern that is no group is an element-shaped
    word, with all its lower-case letters. *)
Lemma tree_re_symbol (x g ds rest : string) :
  tree_re x = Some ((g, ds), rest) -> starts_with_paren g = false ->
  exists c low,
    g = String c low /\ is_upper c = true /\ str_forall is_lower low = true /\
    x = String c (low ++ ds ++ rest) /\ starts is_lower (ds ++ rest) = false.
Proof.
  unfold tree_re, alt.
  destruct (match_group x) as [[g' r] |] eqn:Hg.
  - apply match_group_spec in Hg as (_ & body & -> & _).
    destruct (span is_decimal r) as [ds' rest'].
    intros H. injection H as <- <- <-. discriminate.
  - destruct x as [| c s]; [discriminate |]. unfold match_symbol.
    destruct (is_upper c) eqn:Hc; [| discriminate].
    pose proof (span_append is_lower s) as Happ.
    pose proof (span_fst_forall is_lower s) as Hlow.
    pose proof (span_snd_starts is_lower s) as Hstop.
    destruct (span is_lower s) as [low r]. simpl in Happ, Hlow, Hstop.
    pose proof (span_append is_decimal r) as Happ'.
    destruct (span is_decimal r) as [ds' rest']. simpl in Happ'.
    intros H _. injection H as <- <- <-.
    exists c, low. repeat split; try assumption.
    + rewrite Happ'. congruence.
    + rewrite Happ'. assumption.
Qed.

(** Every leaf of a built tree is written in the target, or in the
    formula, as an element-shaped word. *)
Lemma tokentree_symbols (depth : nat) (self : string) :
  forall (target : option string) (tree : tokentree),
    _tokentree depth self target = Ok tree ->
    forall g, In g (symbols tree) ->
      symbol_at (effective_target self target) g \/ symbol_at self g.
Proof.
  induction depth as [| d IH]; intros target tree Htree g Hg; [discriminate |].
  rewrite tokentree_S in Htree. apply map_result_Ok in Htree.
  set (tgt := effective_target self target) in *.
  unfold symbols in Hg. apply in_flat_map in Hg as (top & Htop & Hg).
  destruct (Forall2_In_right _ _ _ _ Htree Htop) as ([g0 ds] & Hin & Hsub).
  apply (findall_In tree_re tree_re_consumes) in Hin
    as (pre & x & rest & Htgt & Hx).
  unfold _tokensubtree in Hsub. simpl fst in Hsub; simpl snd in Hsub.
  destruct (starts_with_paren g0) eqn:Hparen.
  - apply tree_re_spec in Hx as (Hxeq & _ & _ & _ & Hbody).
    rewrite Hparen in Hbody. destruct Hbody as (body & -> & _).
    apply bind_Ok in Hsub as (sub & Hsubtree & Hsub).
    apply bind_Ok in Hsub as (k & _ & Hsub). injection Hsub as <-.
    simpl in Hg. unfold slice_1_m1 in Hsubtree. simpl str_tail in Hsubtree.
    rewrite str_init_append_single in Hsubtree.
    destruct (IH (Some body) sub Hsubtree g Hg) as [Hat | Hat]; [| right; assumption].
    rewrite effective_target_Some in Hat.
    destruct (nonempty body); [| right; assumption].
    left. rewrite Htgt, Hxeq. simpl. rewrite append_assoc. simpl.
    apply symbol_at_in_group. assumption.
  - destruct (tree_re_symbol _ _ _ _ Hx Hparen) as (c & low & -> & Hc & Hlow & -> & Hstop).
    apply bind_Ok in Hsub as (k & _ & Hsub). injection Hsub as <-.
    simpl in Hg. destruct Hg as [<- | []].
    left. exists pre, c, low, (ds ++ rest). repeat split; assumption.
Qed.

Lemma upper_not_in_parens (c : ascii) (low : string) :
  is_upper c = true -> str_contains "()" (String c low) = false.
Proof.
  intros Hc. cbn [str_contains String.prefix].
  destruct (ascii_dec c "(") as [-> | _]; [discriminate Hc |].
  destruct (ascii_dec c ")") as [-> | _]; [discriminate Hc |].
  reflexivity.
Qed.

Lemma upper_not_isdigit (c : ascii) : is_upper c = true -> char_isdigit c = false.
Proof. by_ascii c. Qed.

(** An element-shaped token that is kept is a key of the table. *)
Lemma keep_symbol_in_table (c : ascii) (low : string) :
  is_upper c = true -> keep (String c low) = true ->
  dict_mem _atomic_mass (String c low) = true.
Proof.
  intros Hc. unfold keep, _is_valid.
  rewrite (upper_not_in_parens c low Hc).
  unfold isdigit. cbn [nonempty str_forall andb].
  rewrite (upper_not_isdigit c Hc). cbn [andb].
  destruct (negb (isalpha (String c low))); [discriminate |].
  destruct (dict_mem _atomic_mass (String c low)); [reflexivity | discriminate].
Qed.

(** After [check_symbols], every leaf of the tree is a key of the
    table. *)
Lemma checked_leaves_in_table (depth : nat) (self : string) (tree : tokentree) :
  check_symbols self = Ok true -> _tokentree depth self None = Ok tree ->
  Forall (fun g => dict_mem _atomic_mass g = true) (symbols tree).
Proof.
  intros Hcheck Htree. apply Forall_forall. intros g Hg.
  unfold check_symbols in Hcheck. apply check_tokens_Ok_inv in Hcheck as [_ Hall].
  rewrite Forall_forall in Hall.
  assert (Hat : symbol_at self g).
  { destruct (tokentree_symbols depth self None tree Htree g Hg); assumption. }
  pose proof (Hall g (symbol_at_token self g Hat)) as Hkeep.
  destruct Hat as (_ & c & low & _ & _ & -> & Hc & _).
  apply keep_symbol_in_table; assumption.
Qed.

(** ** Counting atoms *)

Lemma Forall_flat_map_inv {A B : Type} (P : B -> Prop) (f : A -> list B)
    (l : list A) (a : A) :
  Forall P (flat_map f l) -> In a l -> Forall P (f a).
Proof.
  rewrite !Forall_forall. intros H Ha b Hb.
  apply H, in_flat_map. exists a. auto.
Qed.

Lemma sum_int_from (l : list Z) (acc : Z) :
  fold_left Z.add l acc = acc + sum_int l.
Proof.
  unfold sum_int. revert acc; induction l as [| x l IH]; intros acc; simpl; [lia |].
  rewrite (IH (acc + x)), (IH x). lia.
Qed.

Lemma sum_int_cons (x : Z) (l : list Z) : sum_int (x :: l) = x + sum_int l.
Proof. unfold sum_int at 1. simpl. apply sum_int_from. Qed.

Lemma sum_int_nonneg (l : list Z) : Forall (fun x => 0 <= x) l -> 0 <= sum_int l.
Proof.
  induction 1 as [| x l Hx _ IH]; [unfold sum_int; simpl; lia |].
  rewrite sum_int_cons. lia.
Qed.

Lemma sum_int_zero (l : list Z) : Forall (fun x => x = 0) l -> sum_int l = 0.
Proof.
  induction 1 as [| x l Hx _ IH]; [reflexivity |].
  rewrite sum_int_cons. lia.
Qed.

(** The counts of a list of nodes inherit what holds of each node's
    count. *)
Lemma map_count_Forall (symbol : string) (P : node -> Prop) (Q : Z -> Prop)
    (tree : list node) (counts : list Z) :
  Forall (fun n => P n -> forall k, token_count symbol n = Ok k -> Q k) tree ->
  Forall P tree ->
  map_result (token_count symbol) tree = Ok counts -> Forall Q counts.
Proof.
  intros HIH HP H. apply map_result_Ok in H.
  induction H as [| n k tree counts Hk _ IH]; [constructor |].
  inversion HIH; subst. inversion HP; subst. constructor; auto.
Qed.

Lemma token_count_nonneg (symbol : string) (n : node) :
  Forall (fun n' => 0 <= multiplier n') (subnodes n) ->
  forall k, token_count symbol n = Ok k -> 0 <= k.
Proof.
  induction n as [sym natoms | tree natoms IH] using node_nested_ind;
    intros Hmult k Hk.
  - apply Forall_inv in Hmult. simpl in Hmult, Hk.
    destruct (negb (dict_mem _atomic_mass sym)); [discriminate |].
    destruct (negb (String.eqb sym symbol)); injection Hk as <-; lia.
  - simpl in Hmult. pose proof (Forall_inv Hmult) as Hnat. simpl in Hnat.
    apply Forall_inv_tail in Hmult.
    simpl in Hk. apply bind_Ok in Hk as (counts & Hcounts & Hk). injection Hk as <-.
    apply Z.mul_nonneg_nonneg; [| assumption]. apply sum_int_nonneg.
    apply (map_count_Forall symbol
             (fun n => Forall (fun n' => 0 <= multiplier n') (subnodes n))
             (fun k => 0 <= k) tree counts); [assumption | | assumption].
    apply Forall_forall. intros n Hn.
    apply (Forall_flat_map_inv _ subnodes tree n Hmult Hn).
Qed.

Lemma token_count_absent (symbol : string) (n : node) :
  ~ In symbol (node_symbols n) ->
  forall k, token_count symbol n = Ok k -> k = 0.
Proof.
  induction n as [sym natoms | tree natoms IH] using node_nested_ind;
    intros Hnotin k Hk.
  - simpl in Hnotin, Hk.
    destruct (negb (dict_mem _atomic_mass sym)); [discriminate |].
    destruct (String.eqb_spec sym symbol) as [-> | Hne]; simpl in Hk.
    + exfalso. apply Hnotin. left. reflexivity.
    + injection Hk as <-. reflexivity.
  - simpl in Hnotin, Hk.
    apply bind_Ok in Hk as (counts & Hcounts & Hk). injection Hk as <-.
    rewrite (sum_int_zero counts); [reflexivity |].
    apply (map_count_Forall symbol (fun n => ~ In symbol (node_symbols n))
             (fun k => k = 0) tree counts); [assumption | | assumption].
    apply Forall_forall. intros n Hn Hin. apply Hnotin.
    apply in_flat_map. exists n. auto.
Qed.

Lemma token_count_total (symbol : string) (n : node) :
  Forall (fun g => dict_mem _atomic_mass g = true) (node_symbols n) ->
  exists k, token_count symbol n = Ok k.
Proof.
  induction n as [sym natoms | tree natoms IH] using node_nested_ind; intros Htab.
  - apply Forall_inv in Htab. simpl. rewrite Htab. simpl.
    destruct (negb (String.eqb sym symbol)); eexists; reflexivity.
  - simpl in Htab. simpl.
    destruct (map_result_all_Ok (token_count symbol) tree) as (counts & ->).
    + intros n Hn. rewrite Forall_forall in IH. apply (IH n Hn).
      apply (Forall_flat_map_inv _ node_symbols tree n Htab Hn).
    + eexists. reflexivity.
Qed.

Lemma tree_count_total (symbol : string) (tree : tokentree) :
  Forall (fun g => dict_mem _atomic_mass g = true) (symbols tree) ->
  exists k, _tree_count symbol tree = Ok k.
Proof.
  intros Htab. unfold _tree_count.
  destruct (map_result_all_Ok (token_count symbol) tree) as (counts & ->).
  - intros n Hn. apply token_count_total.
    apply (Forall_flat_map_inv _ node_symbols tree n Htab Hn).
  - eexists. reflexivity.
Qed.

Lemma atoms_Ok_bounds (depth : nat) (self symbol : string) (n : Z) :
  atoms depth self symbol = Ok n ->
  0 <= n /\ (~ In symbol (_gettokens self) -> n = 0).
Proof.
  unfold atoms. destruct (negb (dict_mem _atomic_mass symbol)); [discriminate |].
  intros H. apply bind_Ok in H as (tree & Htree & H).
  unfold _tree_count in H. apply bind_Ok in H as (counts & Hcounts & H).
  injection H as <-. split.
  - apply sum_int_nonneg.
    apply (map_count_Forall symbol
             (fun n => Forall (fun n' => 0 <= multiplier n') (subnodes n))
             (fun k => 0 <= k) tree counts); [| | assumption].
    + apply Forall_forall. intros n _. apply token_count_nonneg.
    + apply Forall_forall. intros n Hn. apply Forall_forall. intros n' Hn'.
      apply (tokentree_multipliers depth self None tree Htree n').
      unfold nodes. apply in_flat_map. exists n. auto.
  - intros Hnotin. apply sum_int_zero.
    apply (map_count_Forall symbol (fun n => ~ In symbol (node_symbols n))
             (fun k => k = 0) tree counts); [| | assumption].
    + apply Forall_forall. intros n _. apply token_count_absent.
    + apply Forall_forall. intros n Hn Hin. apply Hnotin.
      destruct (tokentree_symbols depth self None tree Htree symbol) as [Hat | Hat].
      * unfold symbols. apply in_flat_map. exists n. auto.
      * apply symbol_at_token. assumption.
      * apply symbol_at_token. assumption.
Qed.

(** X5. A count that [atoms] returns is a natural number, and it is 0
    when the symbol is not among the tokens of the formula. *)
Theorem atoms_count_bounds (depth : nat) (self symbol : string) (n : Z) :
  atoms depth self symbol = Ok n ->
  0 <= n /\ (~ In symbol (_gettokens self) -> n = 0).
Proof. apply atoms_Ok_bounds. Qed.

Lemma atoms_count_bounds_witness :
  atoms 2 "Ca(OH)2" "N" = Ok 0 /\ ~ In "N" (_gettokens "Ca(OH)2") /\
  0 <= 0 /\ 0 = 0.
Proof.
  assert (Hat : atoms 2 "Ca(OH)2" "N" = Ok 0) by (vm_compute; reflexivity).
  assert (Hnot : ~ In "N" (_gettokens "Ca(OH)2")).
  { vm_compute. intros H. repeat (destruct H as [H | H]; [discriminate H |]).
    exact H. }
  split; [exact Hat |]. split; [exact Hnot |].
  destruct (atoms_count_bounds 2 "Ca(OH)2" "N" 0 Hat) as [H0 Hz].
  split; [exact H0 | exact (Hz Hnot)].
Defined.

Lemma atoms_checked_total (self symbol : string) :
  check_symbols self = Ok true -> has_empty_group self = false ->
  short_numbers self = true -> dict_mem _atomic_mass symbol = true ->
  exists n, forall d, atoms (2 + d) self symbol = Ok n.
Proof.
  intros Hcheck Hgroup Hshort Hsym.
  destruct (tokentree_returns_short self Hgroup Hshort) as (tree & Htree).
  destruct (tree_count_total symbol tree) as (n & Hn).
  { apply (checked_leaves_in_table 2 self tree Hcheck (Htree 0%nat)). }
  exists n. intros d. unfold atoms. rewrite Hsym. simpl negb. cbv iota.
  rewrite (Htree d). simpl bind. assumption.
Qed.

(** X6. Once [check_symbols] has passed, when the pattern finds no
    empty group and no Number token has more than 4300 digits, [atoms]
    returns a count for every symbol of the table, the same at every
    call depth from 2 on. *)
Theorem atoms_total_after_check (self symbol : string) :
  check_symbols self = Ok true -> has_empty_group self = false ->
  short_numbers self = true -> dict_mem _atomic_mass symbol = true ->
  exists n, forall d, atoms (2 + d) self symbol = Ok n.
Proof. apply atoms_checked_total. Qed.

Lemma atoms_total_after_check_witness :
  exists n, forall d, atoms (2 + d) "Be3Al2(SiO3)6" "Fe" = Ok n.
Proof.
  apply (atoms_total_after_check "Be3Al2(SiO3)6" "Fe"); vm_compute; reflexivity.
Defined.

(** ** The mass evaluator *)

Lemma float_of_int_outcome (z : Z) :
  (exists f, float_of_int z = Ok f) \/
  (exists m, float_of_int z = Raise (OverflowError m)).
Proof.
  unfold float_of_int.
  destruct (is_infinity (SF2Prim (binary_normalize prec emax z 0 false)));
    [right | left]; eexists; reflexivity.
Qed.

Lemma py_mul_outcome (v : pynum) (k : Z) :
  mass_value v -> mass_outcome (py_mul v (PyInt k)).
Proof.
  destruct v as [z | x]; simpl.
  - intros ->. reflexivity.
  - intros _. destruct (float_of_int_outcome k) as [(f & ->) | (m & ->)]; exact I.
Qed.

Lemma py_add_outcome (a b : pynum) :
  mass_value a -> mass_value b -> mass_outcome (py_add a b).
Proof.
  destruct a as [x | x], b as [y | y]; simpl.
  - intros -> ->. reflexivity.
  - intros -> _. exact I.
  - intros _ ->. exact I.
  - intros _ _. exact I.
Qed.

Lemma sum_map_outcome {A : Type} (f : A -> result pynum) (l : list A) :
  Forall (fun a => mass_outcome (f a)) l ->
  forall acc, mass_value acc -> mass_outcome (sum_map f l acc).
Proof.
  induction 1 as [| a l Ha _ IH]; intros acc Hacc; [exact Hacc |].
  simpl. destruct (f a) as [x | e]; [| exact Ha]. simpl.
  pose proof (py_add_outcome acc x Hacc Ha) as Hadd.
  destruct (py_add acc x) as [acc' | e]; [| exact Hadd].
  simpl. apply IH. exact Hadd.
Qed.

(** With every leaf in the table, the mass of a node is a float or the
    integer 0, unless a multiplier is too large for a float. *)
Lemma token_mass_outcome (n : node) :
  Forall (fun g => dict_mem _atomic_mass g = true) (node_symbols n) ->
  mass_outcome (token_mass n).
Proof.
  induction n as [sym natoms | tree natoms IH] using node_nested_ind; intros Htab.
  - apply Forall_inv in Htab. unfold dict_mem in Htab. cbn [token_mass].
    destruct (dict_get _atomic_mass sym) as [m |]; [| discriminate].
    cbn [bind]. apply (py_mul_outcome (PyFloat m)). exact I.
  - cbn [node_symbols] in Htab. cbn [token_mass].
    assert (Hsum : mass_outcome (sum_map token_mass tree (PyInt 0))).
    { apply sum_map_outcome; [| reflexivity].
      apply Forall_forall. intros n Hn. rewrite Forall_forall in IH.
      apply (IH n Hn), (Forall_flat_map_inv _ node_symbols tree n Htab Hn). }
    destruct (sum_map token_mass tree (PyInt 0)) as [v | e]; [| exact Hsum].
    cbn [bind]. apply py_mul_outcome. exact Hsum.
Qed.

Lemma tree_mass_outcome (tree : tokentree) :
  Forall (fun g => dict_mem _atomic_mass g = true) (symbols tree) ->
  mass_outcome (_tree_mass tree).
Proof.
  intros Htab. unfold _tree_mass. apply sum_map_outcome; [| reflexivity].
  apply Forall_forall. intros n Hn.
  apply token_mass_outcome, (Forall_flat_map_inv _ node_symbols tree n Htab Hn).
Qed.

Lemma mass_Raise_cases (depth : nat) (self : string) (e : exn) :
  mass depth self = Raise e ->
  check_symbols self = Raise e \/ e = RecursionError \/
  (exists m, e = OverflowError m) \/ (exists n, e = int_limit_error n).
Proof.
  intros H. unfold mass in H.
  destruct (check_symbols self) as [b |] eqn:Hcheck;
    [| left; cbn [bind] in H; injection H as <-; reflexivity].
  right. cbn [bind] in H.
  unfold check_symbols in Hcheck.
  pose proof (check_tokens_Ok_inv _ _ Hcheck) as [-> _].
  destruct (tokentree_raises_only depth self None)
    as [(tree & Htree) | (e' & Hraise & He')].
  - rewrite Htree in H. cbn [bind] in H.
    pose proof (tree_mass_outcome tree
                  (checked_leaves_in_table depth self tree Hcheck Htree)) as Hout.
    rewrite H in Hout. destruct e; try contradiction.
    right. left. eexists. reflexivity.
  - rewrite Hraise in H. cbn [bind] in H. injection H as <-.
    destruct He' as [-> | He']; [left; reflexivity | right; right; assumption].
Qed.

(** X7. [mass] raises whatever [check_symbols] raises; an exception of
    [mass] that did not come from [check_symbols] is [RecursionError],
    [OverflowError] or the [ValueError] of [int] on a run of more than
    4300 digits, never the [KeyError] of the tree evaluation. *)
Theorem mass_errors (depth : nat) (self : string) :
  (forall e, check_symbols self = Raise e -> mass depth self = Raise e) /\
  (forall e, mass depth self = Raise e ->
     check_symbols self = Raise e \/ e = RecursionError \/
     (exists m, e = OverflowError m) \/ (exists n, e = int_limit_error n)) /\
  (forall m, mass depth self = Raise (KeyError m) ->
     check_symbols self = Raise (KeyError m)).
Proof.
  split; [| split].
  - intros e H. unfold mass. rewrite H. reflexivity.
  - intros e H. apply (mass_Raise_cases depth). assumption.
  - intros m H.
    destruct (mass_Raise_cases depth self _ H) as [Hc | [Hr | [(x & Hx) | (n & Hn)]]];
      [assumption | discriminate Hr | discriminate Hx | discriminate Hn].
Qed.

Lemma mass_errors_witness :
  mass 2 "HXx" = Raise (KeyError "bad symbol Xx") /\
  check_symbols "HXx" = Raise (KeyError "bad symbol Xx") /\
  (check_symbols "H()" = Raise RecursionError \/ RecursionError = RecursionError \/
   (exists m, RecursionError = OverflowError m) \/
   (exists n, RecursionError = int_limit_error n)).
Proof.
  assert (Hmass : mass 2 "HXx" = Raise (KeyError "bad symbol Xx")).
  { apply (proj1 (mass_errors 2 "HXx")). vm_compute. reflexivity. }
  split; [exact Hmass |]. split.
  - exact (proj2 (proj2 (mass_errors 2 "HXx")) _ Hmass).
  - apply (proj1 (proj2 (mass_errors 2 "H()"))). vm_compute. reflexivity.
Defined.

(** X8. Once [check_symbols] has passed, when the pattern finds no
    empty group and no Number token has more than 4300 digits, [mass]
    returns a float, or the integer 0, unless a multiplier is too large
    to be converted to a float. *)
Theorem mass_after_check (self : string) (d : nat) :
  check_symbols self = Ok true -> has_empty_group self = false ->
  short_numbers self = true ->
  mass_outcome (mass (2 + d) self).
Proof.
  intros Hcheck Hgroup Hshort. unfold mass. rewrite Hcheck. cbn [bind].
  destruct (tokentree_returns_short self Hgroup Hshort) as (tree & Htree).
  rewrite (Htree d). cbn [bind].
  apply tree_mass_outcome, (checked_leaves_in_table _ self tree Hcheck (Htree d)).
Qed.

Lemma mass_after_check_witness :
  mass_outcome (mass 2 "(12)") /\ mass 2 "(12)" = Ok (PyInt 0).
Proof.
  split.
  - apply (mass_after_check "(12)" 0); vm_compute; reflexivity.
  - vm_compute. reflexivity.
Defined.

(** ** Enumeration after validation *)

Lemma drain_total (depth : nat) (self : string) (fuel : nat) (it : atomiter) :
  (List.length (tmpiter it) < fuel)%nat ->
  Forall (fun a => exists n, atoms depth self a = Ok n) (tmpiter it) ->
  exists pairs, drain depth self fuel it = Ok pairs.
Proof.
  revert it; induction fuel as [| fuel IH]; intros it Hlen Hall; [lia |].
  cbn [drain]. unfold __next__.
  destruct (tmpiter it) as [| my_atom rest] eqn:Htmp; [eexists; reflexivity |].
  destruct (Forall_inv Hall) as (n & ->). cbn [bind].
  destruct (IH {| atomset := atomset it; iter_tokentree := iter_tokentree it;
                  tmpiter := rest |}) as (pairs & ->).
  - simpl in *. lia.
  - apply (Forall_inv_tail Hall).
  - eexists. reflexivity.
Qed.

(** X9. Once [check_symbols] has passed, when the pattern finds no
    empty group and no Number token has more than 4300 digits,
    enumerating the formula runs to its end: it yields one pair for
    each symbol handed to the iterator, in that order, and every count
    is a natural number. *)
Theorem elements_total_after_check (self : string) (d : nat) :
  check_symbols self = Ok true -> has_empty_group self = false ->
  short_numbers self = true ->
  exists pairs,
    elements (2 + d) self = Ok pairs /\
    map fst pairs = atom_symbols self /\
    Forall (fun p => 0 <= snd p) pairs.
Proof.
  intros Hcheck Hgroup Hshort.
  destruct (tokentree_returns_short self Hgroup Hshort) as (tree & Htree).
  unfold elements, __iter__. rewrite (Htree d). cbn [bind tmpiter].
  fold (atom_symbols self).
  set (it := {| atomset := atom_symbols self; iter_tokentree := tree;
                tmpiter := atom_symbols self |}).
  destruct (drain_total (2 + d) self (S (List.length (atom_symbols self))) it)
    as (pairs & Hpairs).
  - simpl. lia.
  - apply Forall_forall. intros a Ha.
    apply (proj2 (atom_symbols_spec self)) in Ha as [_ Ha].
    destruct (atoms_checked_total self a Hcheck Hgroup Hshort Ha) as (n & Hn).
    exists n. apply Hn.
  - exists pairs. split; [assumption |].
    apply drain_spec in Hpairs as [Hfst Hall]; [| simpl; lia].
    split; [assumption |].
    eapply Forall_impl; [| exact Hall]. intros [a n] Hat.
    simpl in *. apply (atoms_Ok_bounds _ _ _ _ Hat).
Qed.

Lemma elements_total_after_check_witness :
  exists pairs,
    elements 2 "Be3Al2(SiO3)6" = Ok pairs /\
    map fst pairs = atom_symbols "Be3Al2(SiO3)6" /\
    Forall (fun p => 0 <= snd p) pairs.
Proof.
  apply (elements_total_after_check "Be3Al2(SiO3)6" 0); vm_compute; reflexivity.
Defined.

(** ** Two levels of calls, or none that ends *)

(** X10. For a formula in which no Number token has more than 4300
    digits: either the pattern finds an empty group, and then building
    the tree, counting the atoms of a table symbol and enumerating all
    raise [RecursionError] at every call depth; or it finds none, and
    then the tree is built with two nested calls and is the same at
    every greater depth. *)
Theorem tokentree_two_levels (self : string) :
  short_numbers self = true ->
  (has_empty_group self = true /\
   (forall depth, _tokentree depth self None = Raise RecursionError) /\
   (forall depth symbol, dict_mem _atomic_mass symbol = true ->
      atoms depth self symbol = Raise RecursionError) /\
   (forall depth, elements depth self = Raise RecursionError)) \/
  (has_empty_group self = false /\
   exists tree, forall d, _tokentree (2 + d) self None = Ok tree).
Proof.
  intros Hshort. destruct (has_empty_group self) eqn:Hgroup; [left | right].
  - pose proof (fun depth =>
                  tokentree_diverges self Hgroup (short_numbers_runs self Hshort)
                    depth None eq_refl) as Hdiv.
    split; [reflexivity |]. split; [exact Hdiv |]. split.
    + intros depth symbol Hsym. unfold atoms. rewrite Hsym, Hdiv. reflexivity.
    + intros depth. unfold elements, __iter__. rewrite Hdiv. reflexivity.
  - split; [reflexivity |]. apply tokentree_returns_short; assumption.
Qed.

Lemma tokentree_two_levels_witness :
  (has_empty_group "H2()" = true /\
   (forall depth, _tokentree depth "H2()" None = Raise RecursionError) /\
   (forall depth symbol, dict_mem _atomic_mass symbol = true ->
      atoms depth "H2()" symbol = Raise RecursionError) /\
   (forall depth, elements depth "H2()" = Raise RecursionError)) \/
  (has_empty_group "H2()" = false /\
   exists tree, forall d, _tokentree (2 + d) "H2()" None = Ok tree).
Proof.
  apply (tokentree_two_levels "H2()"). vm_compute. reflexivity.
Defined.

(** ** Groups hold symbols only *)

Lemma tokentree_body_leaves (depth : nat) (self body : string) (sub : tokentree) :
  nonempty body = true -> str_forall not_close body = true ->
  _tokentree depth self (Some body) = Ok sub -> forallb is_leaf sub = true.
Proof.
  intros Hne Hclose H. destruct depth as [| d]; [discriminate |].
  rewrite tokentree_S, effective_target_Some, Hne in H.
  apply map_result_Ok in H. apply forallb_forall. intros n Hn.
  destruct (Forall2_In_right _ _ _ _ H Hn) as ([g ds] & Hin & Hsub).
  apply findall_tree_re_In in Hin as [_ Hparen].
  unfold _tokensubtree in Hsub. simpl fst in Hsub; simpl snd in Hsub.
  destruct (starts_with_paren g).
  - exfalso. destruct Hparen as (pre & b & post & _ & _ & ->).
    assert (Habs : not_close ")" = true); [| discriminate Habs].
    apply (str_forall_middle not_close (pre ++ String "(" b) ")" post).
    rewrite append_assoc. exact Hclose.
  - apply bind_Ok in Hsub as (k & _ & Hsub). injection Hsub as <-. reflexivity.
Qed.

(** X11. In a tree that [_tokentree] builds for a formula, a group
    never holds a group: every node is a symbol, or a group whose
    subtree consists of symbols only. *)
Theorem tokentree_groups_flat (depth : nat) (self : string) (tree : tokentree) :
  _tokentree depth self None = Ok tree ->
  Forall (fun n => is_flat n = true) tree.
Proof.
  intros H. destruct depth as [| d]; [discriminate |].
  rewrite tokentree_S in H. change (effective_target self None) with self in H.
  apply map_result_Ok in H. apply Forall_forall. intros n Hn.
  destruct (Forall2_In_right _ _ _ _ H Hn) as ([g ds] & Hin & Hsub).
  pose proof (findall_tree_re_In _ _ _ Hin) as [_ Hparen].
  unfold _tokensubtree in Hsub. simpl fst in Hsub; simpl snd in Hsub.
  destruct (starts_with_paren g).
  - destruct Hparen as (pre & body & post & -> & Hclose & _).
    apply bind_Ok in Hsub as (sub & Hsubtree & Hsub).
    apply bind_Ok in Hsub as (k & _ & Hsub). injection Hsub as <-.
    unfold slice_1_m1 in Hsubtree. simpl str_tail in Hsubtree.
    rewrite str_init_append_single in Hsubtree.
    destruct body as [| c body].
    + exfalso.
      assert (Hgroup : has_empty_group self = true).
      { unfold has_empty_group. apply existsb_exists.
        exists ("()", ds). split; [exact Hin | reflexivity]. }
      apply (tokentree_empty_group_not_Ok self Hgroup d (Some EmptyString) sub
               eq_refl Hsubtree).
    + simpl. apply (tokentree_body_leaves d self (String c body) sub);
        [reflexivity | assumption | assumption].
  - apply bind_Ok in Hsub as (k & _ & Hsub). injection Hsub as <-. reflexivity.
Qed.

Lemma tokentree_groups_flat_witness :
  _tokentree 2 "Ca((OH)2)2" None
    = Ok [Symbol "Ca" 1; Group [Symbol "O" 1; Symbol "H" 1] 2] /\
  Forall (fun n => is_flat n = true)
    [Symbol "Ca" 1; Group [Symbol "O" 1; Symbol "H" 1] 2].
Proof.
  assert (Htree : _tokentree 2 "Ca((OH)2)2" None
                  = Ok [Symbol "Ca" 1; Group [Symbol "O" 1; Symbol "H" 1] 2])
    by (vm_compute; reflexivity).
  split; [exact Htree |].
  exact (tokentree_groups_flat 2 "Ca((OH)2)2" _ Htree).
Defined.

(** ** Every element token is a leaf of the tree *)

Lemma span_not_close_stop (s : string) (c : ascii) (r : string) :
  snd (span not_close s) = String c r -> c = ")"%char.
Proof.
  intros H. pose proof (span_snd_starts not_close s) as Hstop.
  rewrite H in Hstop. simpl in Hstop. unfold not_close in Hstop.
  apply negb_false_iff, Ascii.eqb_eq in Hstop. assumption.
Qed.

(** The tree pattern at an opening parenthesis that has a closing one
    after it. *)
Lemma tree_re_group (c : ascii) (s : string) (c' : ascii) (r : string) :
  Ascii.eqb c "(" = true -> snd (span not_close s) = String c' r ->
  tree_re (String c s)
  = Some ((String "(" (fst (span not_close s) ++ String ")" EmptyString),
           fst (span is_decimal r)),
          snd (span is_decimal r)).
Proof.
  intros Hc Hsnd. pose proof (span_not_close_stop s c' r Hsnd) as ->.
  apply Ascii.eqb_eq in Hc. subst c.
  unfold tree_re, alt, match_group. rewrite Ascii.eqb_refl.
  destruct (span not_close s) as [body rest]. simpl in Hsnd. subst rest.
  rewrite Ascii.eqb_refl. simpl fst. destruct (span is_decimal r); reflexivity.
Qed.

(** The tree pattern at an upper-case letter. *)
Lemma tree_re_upper (c : ascii) (s : string) :
  is_upper c = true ->
  tree_re (String c s)
  = Some ((String c (fst (span is_lower s)),
           fst (span is_decimal (snd (span is_lower s)))),
          snd (span is_decimal (snd (span is_lower s)))).
Proof.
  intros Hc. unfold tree_re, alt, match_group, match_symbol.
  assert (Hparen : Ascii.eqb c "(" = false) by (revert Hc; clear; by_ascii c).
  rewrite Hparen, Hc. destruct (span is_lower s) as [low r]. simpl.
  destruct (span is_decimal r); reflexivity.
Qed.

(** The tree pattern anywhere else. *)
Lemma tree_re_none (c : ascii) (s : string) :
  is_upper c = false ->
  Ascii.eqb c "(" = false \/ snd (span not_close s) = EmptyString ->
  tree_re (String c s) = None.
Proof.
  intros Hc Hno. unfold tree_re, alt, match_group, match_symbol. rewrite Hc.
  destruct (Ascii.eqb c "("); [| reflexivity].
  destruct Hno as [Hno | Hno]; [discriminate |].
  destruct (span not_close s) as [body rest]. simpl in Hno. subst rest. reflexivity.
Qed.

Lemma starts_span_fst (p q : ascii -> bool) (r : string) :
  starts p r = false -> starts p (fst (span q r)) = false.
Proof.
  destruct r as [| c r]; [trivial |]. simpl.
  destruct (q c); [| trivial]. destruct (span q r). simpl. trivial.
Qed.

Lemma lower_not_close (c : ascii) : is_lower c = true -> not_close c = true.
Proof. by_ascii c. Qed.

Lemma upper_not_close (c : ascii) : is_upper c = true -> not_close c = true.
Proof. by_ascii c. Qed.

Lemma upper_not_paren (c : ascii) : is_upper c = true -> Ascii.eqb c "(" = false.
Proof. by_ascii c. Qed.

(** An element-shaped word of the target is found by the tree pattern
    as a match of its own, or lies in the body of a group it finds. *)
Lemma findall_tree_symbol_at (target g : string) :
  symbol_at target g ->
  (exists ds, In (g, ds) (findall tree_re target)) \/
  (exists body ds,
     In (String "(" (body ++ String ")" EmptyString), ds) (findall tree_re target) /\
     symbol_at body g).
Proof.
  intros (pre & c & low & rest & -> & -> & Hc & Hlow & Hrest).
  remember (String.length pre) as n eqn:Hn.
  revert pre Hn; induction n as [n IH] using lt_wf_ind; intros pre Hn.
  assert (Hcons : forall (a b : string) (l : list (string * string)),
            (exists ds, In (String c low, ds) l) \/
            (exists body ds,
               In (String "(" (body ++ String ")" EmptyString), ds) l /\
               symbol_at body (String c low)) ->
            (exists ds, In (String c low, ds) ((a, b) :: l)) \/
            (exists body ds,
               In (String "(" (body ++ String ")" EmptyString), ds) ((a, b) :: l) /\
               symbol_at body (String c low))).
  { intros a b l [(ds & H) | (body & ds & H & Hat)].
    - left. exists ds. right. assumption.
    - right. exists body, ds. split; [right; assumption | assumption]. }
  set (T := String c (low ++ rest)).
  assert (HTdec : starts is_decimal T = false) by (apply upper_not_decimal, Hc).
  assert (HTlow : starts is_lower T = false) by (apply upper_not_lower, Hc).
  destruct pre as [| c' pre].
  - left. unfold T. simpl append. rewrite (findall_cons tree_re tree_re_consumes).
    rewrite (tree_re_upper c _ Hc), (span_stop is_lower low rest Hlow Hrest).
    eexists. left. reflexivity.
  - simpl in Hn. simpl append. fold T.
    rewrite (findall_cons tree_re tree_re_consumes).
    destruct (Ascii.eqb c' "(") eqn:Hparen.
    + destruct (snd (span not_close pre)) as [| c2 r2] eqn:Hsnd.
      * (* no closing parenthesis before the word *)
        pose proof (span_append not_close pre) as Happ.
        pose proof (span_fst_forall not_close pre) as Hall.
        rewrite Hsnd, append_nil_r in Happ. rewrite Happ in Hall.
        pose proof (span_prefix not_close pre T Hall) as Hspan.
        destruct (snd (span not_close T)) as [| c3 r3] eqn:HsndT.
        -- rewrite tree_re_none.
           ++ apply (IH (String.length pre)); [lia | reflexivity].
           ++ apply Ascii.eqb_eq in Hparen. subst c'. reflexivity.
           ++ right. rewrite Hspan. reflexivity.
        -- rewrite (tree_re_group c' (pre ++ T) c3 r3 Hparen)
             by (rewrite Hspan; reflexivity).
           right. rewrite Hspan. simpl fst.
           exists (pre ++ fst (span not_close T)), (fst (span is_decimal r3)).
           split; [left; reflexivity |].
           unfold T. simpl span. rewrite (upper_not_close c Hc).
           rewrite (span_prefix not_close low rest
                      (str_forall_impl _ _ low lower_not_close Hlow)).
           simpl fst.
           exists pre, c, low, (fst (span not_close rest)).
           repeat split; try assumption. apply starts_span_fst. assumption.
      * (* the group closes before the word *)
        pose proof (span_append not_close pre) as Happ. rewrite Hsnd in Happ.
        assert (Hlen : (String.length r2 < String.length pre)%nat).
        { rewrite <- Happ, length_append. simpl. lia. }
        rewrite (tree_re_group c' (pre ++ T) c2 (r2 ++ T) Hparen).
        2:{ rewrite (span_append_left not_close pre T); [| left; rewrite Hsnd; reflexivity].
            rewrite Hsnd. reflexivity. }
        apply Hcons.
        rewrite (span_append_left is_decimal r2 T (or_intror HTdec)). simpl snd.
        pose proof (span_snd_length is_decimal r2) as Hlen'.
        apply (IH (String.length (snd (span is_decimal r2)))); [lia | reflexivity].
    + destruct (is_upper c') eqn:Hup.
      * rewrite (tree_re_upper c' _ Hup). apply Hcons.
        rewrite (span_append_left is_lower pre T (or_intror HTlow)). simpl snd.
        rewrite (span_append_left is_decimal _ T (or_intror HTdec)). simpl snd.
        pose proof (span_snd_length is_lower pre) as Hlen1.
        pose proof (span_snd_length is_decimal (snd (span is_lower pre))) as Hlen2.
        apply (IH (String.length (snd (span is_decimal (snd (span is_lower pre))))));
          [lia | reflexivity].
      * rewrite (tree_re_none c' _ Hup (or_introl Hparen)).
        apply (IH (String.length pre)); [lia | reflexivity].
Qed.

Lemma tokentree_symbol_leaf (depth : nat) (self : string) :
  forall (target : option string) (tree : tokentree) (g : string),
    _tokentree depth self target = Ok tree ->
    symbol_at (effective_target self target) g -> In g (symbols tree).
Proof.
  induction depth as [| d IH]; intros target tree g Htree Hat; [discriminate |].
  rewrite tokentree_S in Htree. apply map_result_Ok in Htree.
  unfold symbols. apply in_flat_map.
  destruct (findall_tree_symbol_at _ g Hat) as [(ds & Hin) | (body & ds & Hin & Hbody)].
  - destruct (Forall2_In_left _ _ _ _ Htree Hin) as (n & Hn & Hsub).
    exists n. split; [assumption |].
    destruct Hat as (_ & c & low & _ & _ & -> & Hc & _).
    unfold _tokensubtree in Hsub. simpl fst in Hsub; simpl snd in Hsub.
    cbn [starts_with_paren] in Hsub. rewrite (upper_not_paren c Hc) in Hsub.
    apply bind_Ok in Hsub as (k & _ & Hsub). injection Hsub as <-.
    left. reflexivity.
  - destruct (Forall2_In_left _ _ _ _ Htree Hin) as (n & Hn & Hsub).
    exists n. split; [assumption |].
    unfold _tokensubtree in Hsub. simpl fst in Hsub; simpl snd in Hsub.
    cbn [starts_with_paren] in Hsub. rewrite Ascii.eqb_refl in Hsub.
    apply bind_Ok in Hsub as (sub & Hsubtree & Hsub).
    apply bind_Ok in Hsub as (k & _ & Hsub). injection Hsub as <-.
    unfold slice_1_m1 in Hsubtree. simpl str_tail in Hsubtree.
    rewrite str_init_append_single in Hsubtree.
    simpl. apply (IH (Some body) sub g Hsubtree).
    rewrite effective_target_Some.
    destruct Hbody as (a & c & low & rest & -> & Hrest).
    replace (nonempty (a ++ String c (low ++ rest))) with true
      by (destruct a; reflexivity).
    exists a, c, low, rest. split; [reflexivity | assumption].
Qed.

Lemma token_symbol_at (s g : string) :
  In g (_gettokens s) -> starts is_upper g = true -> symbol_at s g.
Proof.
  intros Hin Hup.
  apply (findall_In token_re token_re_consumes) in Hin as (pre & x & rest & -> & Hx).
  destruct x as [| c x]; [discriminate |]. rewrite token_re_cons in Hx.
  destruct (is_upper c) eqn:Hc.
  - injection Hx as <- <-.
    exists pre, c, (fst (span is_lower x)), (snd (span is_lower x)).
    rewrite span_append. repeat split; try assumption.
    + apply span_fst_forall.
    + apply span_snd_starts.
  - destruct (is_decimal c);
      [| destruct (Ascii.eqb "(" c || Ascii.eqb ")" c || negb (is_space c))%bool];
      try discriminate; injection Hx as <- <-; simpl in Hup; congruence.
Qed.



(** ** A symbol that occurs is counted *)

Lemma sum_int_positive (l : list Z) :
  Forall (fun x => 0 <= x) l -> (exists x, In x l /\ 1 <= x) -> 1 <= sum_int l.
Proof.
  induction 1 as [| y l Hy Hl IH]; intros (x & Hin & Hx); [contradiction |].
  rewrite sum_int_cons. pose proof (sum_int_nonneg l Hl) as Hsum.
  destruct Hin as [-> | Hin]; [lia |].
  assert (1 <= sum_int l); [| lia]. apply IH. exists x. auto.
Qed.

(** The counts of a list of nodes whose multipliers are all positive:
    natural numbers, one of them positive when the symbol is a leaf of
    one of the nodes and each node with that leaf has a positive
    count. *)
Lemma tree_counts_positive (symbol : string) (tree : list node) (counts : list Z) :
  Forall (fun n => Forall (fun n' => 1 <= multiplier n') (subnodes n) ->
                   In symbol (node_symbols n) ->
                   forall k, token_count symbol n = Ok k -> 1 <= k) tree ->
  Forall (fun n => Forall (fun n' => 1 <= multiplier n') (subnodes n)) tree ->
  In symbol (flat_map node_symbols tree) ->
  map_result (token_count symbol) tree = Ok counts ->
  1 <= sum_int counts.
Proof.
  intros HIH Hmult Hin Hcounts. apply sum_int_positive.
  - apply (map_count_Forall symbol
             (fun n => Forall (fun n' => 0 <= multiplier n') (subnodes n))
             (fun k => 0 <= k) tree counts); [| | assumption].
    + apply Forall_forall. intros n _. apply token_count_nonneg.
    + eapply Forall_impl; [| exact Hmult]. intros n Hn.
      eapply Forall_impl; [| exact Hn]. intros n' Hn'. simpl in Hn'. lia.
  - apply in_flat_map in Hin as (n & Hn & Hsym).
    apply map_result_Ok in Hcounts.
    destruct (Forall2_In_left _ _ _ _ Hcounts Hn) as (k & Hk & Hnk).
    exists k. split; [assumption |].
    rewrite Forall_forall in HIH, Hmult. apply (HIH n Hn (Hmult n Hn) Hsym k Hnk).
Qed.

Lemma token_count_positive (symbol : string) (n : node) :
  Forall (fun n' => 1 <= multiplier n') (subnodes n) ->
  In symbol (node_symbols n) ->
  forall k, token_count symbol n = Ok k -> 1 <= k.
Proof.
  induction n as [sym natoms | tree natoms IH] using node_nested_ind;
    intros Hmult Hin k Hk.
  - apply Forall_inv in Hmult. simpl in Hmult, Hin, Hk.
    destruct Hin as [-> | []].
    destruct (negb (dict_mem _atomic_mass symbol)); [discriminate |].
    rewrite String.eqb_refl in Hk. injection Hk as <-. assumption.
  - simpl in Hmult. pose proof (Forall_inv Hmult) as Hnat. simpl in Hnat.
    apply Forall_inv_tail in Hmult.
    simpl in Hin, Hk. apply bind_Ok in Hk as (counts & Hcounts & Hk).
    injection Hk as <-.
    assert (1 <= sum_int counts); [| nia].
    apply (tree_counts_positive symbol tree counts); try assumption.
    apply Forall_forall. intros n Hn.
    apply (Forall_flat_map_inv _ subnodes tree n Hmult Hn).
Qed.

Lemma dict_get_In {V : Type} (d : list (string * V)) (k : string) (v : V) :
  dict_get d k = Some v -> In (k, v) d.
Proof.
  induction d as [| [k' v'] d IH]; simpl; [discriminate |].
  destruct (String.eqb_spec k k') as [-> | _].
  - intros H. injection H as <-. left. reflexivity.
  - intros H. right. auto.
Qed.

(** Every key of the table starts with an upper-case letter. *)
Lemma table_key_upper (k : string) :
  dict_mem _atomic_mass k = true -> starts is_upper k = true.
Proof.
  unfold dict_mem. destruct (dict_get _atomic_mass k) as [v |] eqn:Hget;
    [| discriminate].
  intros _. apply dict_get_In in Hget.
  assert (Hall : forallb (fun kv => starts is_upper (fst kv)) _atomic_mass = true)
    by (vm_compute; reflexivity).
  rewrite forallb_forall in Hall. apply (Hall (k, v) Hget).
Qed.

Lemma atoms_Ok_positive (depth : nat) (self symbol : string) (n : Z) :
  atoms depth self symbol = Ok n -> no_zero_number self = true ->
  In symbol (_gettokens self) -> 1 <= n.
Proof.
  unfold atoms. destruct (dict_mem _atomic_mass symbol) eqn:Hsym; [| discriminate].
  cbn [negb]. intros H Hnz Hin. apply bind_Ok in H as (tree & Htree & H).
  unfold _tree_count in H. apply bind_Ok in H as (counts & Hcounts & H).
  injection H as <-.
  apply (tree_counts_positive symbol tree counts); [| | | assumption].
  - apply Forall_forall. intros n _. apply token_count_positive.
  - apply Forall_forall. intros n Hn. apply Forall_forall. intros n' Hn'.
    destruct (tokentree_multipliers depth self None tree Htree n') as [H0 Hz].
    { unfold nodes. apply in_flat_map. exists n. auto. }
    assert (multiplier n' <> 0); [| lia].
    intros Hzero. apply (no_zero_number_no_run self Hnz).
    destruct (Hz Hzero); assumption.
  - apply (tokentree_symbol_leaf depth self None tree symbol Htree).
    apply token_symbol_at; [assumption | apply table_key_upper; assumption].
Qed.

(** X13. When no Number token of the formula denotes 0, a count that
    [atoms] returns is at least 1 exactly when the symbol is among the
    tokens of the formula (and 0 otherwise). *)
Theorem atoms_positive_iff (depth : nat) (self symbol : string) (n : Z) :
  atoms depth self symbol = Ok n -> no_zero_number self = true ->
  (1 <= n <-> In symbol (_gettokens self)).
Proof.
  intros Hat Hnz. split.
  - intros Hn. destruct (in_dec string_dec symbol (_gettokens self)) as [Hin | Hnot];
      [assumption |].
    pose proof (proj2 (atoms_Ok_bounds depth self symbol n Hat) Hnot). lia.
  - apply (atoms_Ok_positive depth self symbol n Hat Hnz).
Qed.

Lemma atoms_positive_iff_witness :
  atoms 2 "Ca((OH)2)2" "H" = Ok 2 /\ no_zero_number "Ca((OH)2)2" = true /\
  (1 <= 2 <-> In "H" (_gettokens "Ca((OH)2)2")).
Proof.
  assert (Hat : atoms 2 "Ca((OH)2)2" "H" = Ok 2) by (vm_compute; reflexivity).
  assert (Hnz : no_zero_number "Ca((OH)2)2" = true) by (vm_compute; reflexivity).
  split; [exact Hat |]. split; [exact Hnz |].
  exact (atoms_positive_iff 2 "Ca((OH)2)2" "H" 2 Hat Hnz).
Defined.

(** X14. When no Number token of the formula denotes 0, every pair the
    enumeration yields has a count of at least 1. *)
Theorem elements_counts_positive (depth : nat) (self : string)
    (pairs : list (string * Z)) :
  elements depth self = Ok pairs -> no_zero_number self = true ->
  Forall (fun p => 1 <= snd p) pairs.
Proof.
  intros H Hnz. unfold elements in H. apply bind_Ok in H as (it & Hit & H).
  unfold __iter__ in Hit. apply bind_Ok in Hit as (tree & _ & Hit).
  injection Hit as <-. cbn [tmpiter] in H.
  apply drain_spec in H as [Hfst Hall]; [| simpl; lia].
  cbn [tmpiter] in Hfst. fold (atom_symbols self) in Hfst.
  apply Forall_forall. intros [a n] Hp.
  rewrite Forall_forall in Hall. pose proof (Hall (a, n) Hp) as Hat. simpl in Hat.
  simpl. apply (atoms_Ok_positive depth self a n Hat Hnz).
  assert (Ha : In a (atom_symbols self)).
  { rewrite <- Hfst. apply (in_map fst pairs (a, n) Hp). }
  apply (proj2 (atom_symbols_spec self)) in Ha. apply Ha.
Qed.

Lemma elements_counts_positive_witness :
  elements 2 "Be3Al2(SiO3)6" = Ok [("Al", 2); ("Be", 3); ("O", 18); ("Si", 6)] /\
  Forall (fun p => 1 <= snd p) [("Al", 2); ("Be", 3); ("O", 18); ("Si", 6)].
Proof.
  assert (H : elements 2 "Be3Al2(SiO3)6"
              = Ok [("Al", 2); ("Be", 3); ("O", 18); ("Si", 6)])
    by (vm_compute; reflexivity).
  split; [exact H |].
  apply (elements_counts_positive 2 "Be3Al2(SiO3)6" _ H). vm_compute. reflexivity.
Defined.

(** ** Evaluating a cleaned formula *)

(** X15. The mass of a cleaned formula never fails on a symbol:
    whatever the input, [mass] of what [clean_copy] returns raises no
    [KeyError] and no [ValueError] of [check_symbols]; it can only
    raise [RecursionError], [OverflowError] or the [ValueError] of
    [int] on a run of more than 4300 digits. *)
Theorem mass_clean_copy_errors (depth : nat) (f : string) (e : exn) :
  mass depth (clean_copy f) = Raise e ->
  e = RecursionError \/ (exists m, e = OverflowError m) \/
  (exists n, e = int_limit_error n).
Proof.
  intros H. apply mass_Raise_cases in H as [Hcheck | H]; [| assumption].
  unfold check_symbols in Hcheck.
  rewrite (check_tokens_Ok _ (clean_copy_tokens_kept f)) in Hcheck. discriminate.
Qed.

Lemma mass_clean_copy_errors_witness :
  clean_copy "(x)H" = "()H" /\
  (RecursionError = RecursionError \/ (exists m, RecursionError = OverflowError m) \/
   (exists n, RecursionError = int_limit_error n)).
Proof.
  split; [vm_compute; reflexivity |].
  apply (mass_clean_copy_errors 5 "(x)H" RecursionError). vm_compute. reflexivity.
Defined.
